(** * Transformer: frame-transformation graph, chain resolver and makers

    A shallow embedding of [src/Transformer.cpp] (namespace [transformer]).
    The rigid-transform arithmetic (Eigen) and the stream aggregator are
    external collaborators of the program: they enter the model as
    interfaces ([MathLibrary], [StreamAggregator]) and every statement holds
    for any implementation of them. *)

From Stdlib Require Import ZArith Lia.
From stdpp Require Import base strings list gmap.

Local Open Scope string_scope.
Local Open Scope Z_scope.
Local Open Scope list_scope.

(** ** External interfaces *)

(** [Eigen::Transform3d] with the three operations the program uses:
    [Identity()], [operator*] and [inverse()].  No algebraic law is assumed,
    so the statements below also cover floating-point matrices. *)
Class MathLibrary := {
  Transform3d : Type;
  Identity : Transform3d;
  times : Transform3d -> Transform3d -> Transform3d;
  inverse : Transform3d -> Transform3d
}.

(** [base::Time], a count of microseconds. *)
Abbreviation Time := Z (only parsing).

(** [transformer::Transformation]: a timed transformation sample. *)
Record Transformation `{MathLibrary} := mkTransformation {
  from : string;
  to : string;
  time : Time;
  transform : Transform3d
}.

Arguments mkTransformation {_} _ _ _ _.

(** The stream aggregator as the program uses it.  [registerStream] takes
    the buffer size, the period and the priority (the callback the program
    passes is always NULL) and hands out a stream index; [push] stores a
    sample under an index; [queryStream] is what a dynamic element asks when
    it is sampled. *)
Class StreamAggregator `{MathLibrary} := {
  Aggregator : Type;
  registerStream : Aggregator -> Z -> Time -> Z -> Z * Aggregator;
  push : Z -> Time -> Transformation -> Aggregator -> Aggregator;
  queryStream : Aggregator -> Z -> Time -> bool -> option Transform3d
}.

(** ** TransformationElement *)

Section Elements.
Context `{MathLibrary}.

(** The three element classes.  A dynamic element keeps the stream index it
    was built with; the aggregator it refers to is the transformer's own and
    is passed in where the element is sampled. *)
Inductive TransformationElement :=
| StaticTransformationElement (sourceFrame targetFrame : string)
                              (staticTransform : Transform3d)
| DynamicTransformationElement (sourceFrame targetFrame : string)
                               (streamIdx : Z)
| InverseTransformationElement (nonInverseElement : TransformationElement).

(** Modelled from the spec: the frame accessors of [TransformationElement]
    are declared in Transformer.h, which is not part of the sources.  The
    spec's data model: an inverse edge's endpoints are exactly the swap of
    its underlying edge's endpoints. *)
Fixpoint getSourceFrame (e : TransformationElement) : string :=
  match e with
  | StaticTransformationElement s _ _ => s
  | DynamicTransformationElement s _ _ => s
  | InverseTransformationElement source => getTargetFrame source
  end
with getTargetFrame (e : TransformationElement) : string :=
  match e with
  | StaticTransformationElement _ t _ => t
  | DynamicTransformationElement _ t _ => t
  | InverseTransformationElement source => getSourceFrame source
  end.

End Elements.

Section Sampling.
Context `{StreamAggregator}.

(** Modelled from the spec: [getTransformation] of the static element is
    defined in Transformer.h, which is not part of the sources.  The spec's
    table: a static element returns its stored transform regardless of the
    time and the interpolation flag, and never fails. *)
Definition getStaticTransformation (staticTransform : Transform3d)
    (atTime : Time) (doInterpolation : bool) : option Transform3d :=
  Some staticTransform.

(** Modelled from the spec: [getTransformation] of the dynamic element is
    defined in Transformer.h, which is not part of the sources.  The spec's
    table: a dynamic element queries the aggregator for its stream index at
    the given time, and has no sample when the aggregator has none. *)
Definition getDynamicTransformation (aggregator : Aggregator) (streamIdx : Z)
    (atTime : Time) (doInterpolation : bool) : option Transform3d :=
  queryStream aggregator streamIdx atTime doInterpolation.

(** The virtual call [element->getTransformation(atTime, doInterpolation,
    tr)]; [None] is the [return false].  The inverse case is
    [InverseTransformationElement::getTransformation] of the source. *)
Fixpoint getElementTransformation (aggregator : Aggregator)
    (e : TransformationElement) (atTime : Time) (doInterpolation : bool)
    : option Transform3d :=
  match e with
  | StaticTransformationElement _ _ tr =>
      getStaticTransformation tr atTime doInterpolation
  | DynamicTransformationElement _ _ idx =>
      getDynamicTransformation aggregator idx atTime doInterpolation
  | InverseTransformationElement nonInverseElement =>
      match getElementTransformation aggregator nonInverseElement
              atTime doInterpolation with
      | Some tr => Some (inverse tr)
      | None => None
      end
  end.

End Sampling.

(** ** TransformationTree *)

Section Tree.
Context `{MathLibrary}.

(** The tree's members: the vector of known elements and the search bound
    [maxSeekDepth] (an [int] set in Transformer.h; kept as a field so that
    every statement holds for any value of it). *)
Record TransformationTree := mkTree {
  availableElements : list TransformationElement;
  maxSeekDepth : Z
}.

(** [TransformationTree::addTransformation]: two [push_back]s. *)
Definition addTransformation (tree : TransformationTree)
    (element : TransformationElement) : TransformationTree :=
  let elements := availableElements tree ++ [element] in
  let inverse := InverseTransformationElement element in
  {| availableElements := elements ++ [inverse];
     maxSeekDepth := maxSeekDepth tree |}.

(** [TransformationNode], seen from a node upwards.  The source builds
    nodes in two places only: the root with [parent] and [parentToCurNode]
    both NULL, and a child with both set; these are the two constructors.
    The [childs] vector is empty when a node is created and is filled by the
    single expansion of that node; it is the value [addMatchingTransforms]
    returns. *)
Inductive TransformationNode :=
| RootNode (name : string)
| ChildNode (name : string) (parentNode : TransformationNode)
            (parentEdge : TransformationElement).

Definition frameName (node : TransformationNode) : string :=
  match node with
  | RootNode name => name
  | ChildNode name _ _ => name
  end.

Definition parent (node : TransformationNode) : option TransformationNode :=
  match node with
  | RootNode _ => None
  | ChildNode _ p _ => Some p
  end.

Definition parentToCurNode (node : TransformationNode)
    : option TransformationElement :=
  match node with
  | RootNode _ => None
  | ChildNode _ _ e => Some e
  end.

(** The test of the loop guard: [node->parent] is set and its [frameName]
    equals the element's [getTargetFrame()]. *)
Definition reversesPreviousStep (node : TransformationNode)
    (it : TransformationElement) : bool :=
  match parent node with
  | Some p => bool_decide (frameName p = getTargetFrame it)
  | None => false
  end.

(** The loop of [addMatchingTransforms] over [availableElements], with the
    node's [childs] vector threaded through. *)
Fixpoint addMatchingTransforms_loop (elements : list TransformationElement)
    (from : string) (node : TransformationNode)
    (childs : list TransformationNode) : list TransformationNode :=
  match elements with
  | [] => childs
  | it :: rest =>
      if bool_decide (getSourceFrame it = from) then
        if reversesPreviousStep node it then
          addMatchingTransforms_loop rest from node childs
        else
          addMatchingTransforms_loop rest from node
            (childs ++ [ChildNode (getTargetFrame it) node it])
      else addMatchingTransforms_loop rest from node childs
  end.

Definition addMatchingTransforms (tree : TransformationTree) (from : string)
    (node : TransformationNode) : list TransformationNode :=
  addMatchingTransforms_loop (availableElements tree) from node [].

(** [checkForMatchingChildFrame]: the first child named [to]; [None] is the
    [end()] iterator. *)
Fixpoint checkForMatchingChildFrame (to : string)
    (childs : list TransformationNode) : option TransformationNode :=
  match childs with
  | [] => None
  | it :: rest =>
      if bool_decide (frameName it = to) then Some it
      else checkForMatchingChildFrame to rest
  end.

(** The [while(curNode->parent)] loop: every step pushes the edge that
    leads into [curNode] and moves to the parent. *)
Fixpoint collectChain (curNode : TransformationNode)
    (result : list TransformationElement) : list TransformationElement :=
  match curNode with
  | ChildNode _ p e => collectChain p (result ++ [e])
  | RootNode _ => result
  end.

(** The inner loop over [curLevel]: either a candidate is found and the
    function returns with the extended [result], or the level is exhausted
    and [nextLevel] holds all children. *)
Fixpoint seekLevel (tree : TransformationTree) (to : string)
    (result : list TransformationElement)
    (curLevel nextLevel : list TransformationNode)
    : list TransformationElement + list TransformationNode :=
  match curLevel with
  | [] => inr nextLevel
  | it :: rest =>
      let childs := addMatchingTransforms tree (frameName it) it in
      match checkForMatchingChildFrame to childs with
      | Some candidate => inl (collectChain candidate result)
      | None => seekLevel tree to result rest (nextLevel ++ childs)
      end
  end.

(** The outer [for] loop.  [i] is the loop counter; [fuel] only bounds the
    recursion and [None] means it ran out (it never does when started with
    more than [maxSeekDepth], see [seekLoop_total]). *)
Fixpoint seekLoop (fuel : nat) (tree : TransformationTree) (to : string)
    (result : list TransformationElement) (i : Z)
    (curLevel : list TransformationNode)
    : option (bool * list TransformationElement) :=
  match fuel with
  | O => None
  | S fuel' =>
      if (i <? maxSeekDepth tree) && negb (bool_decide (curLevel = []))
      then
        match seekLevel tree to result curLevel [] with
        | inl chain => Some (true, chain)
        | inr nextLevel => seekLoop fuel' tree to result (i + 1) nextLevel
        end
      else Some (false, result)
  end.

(** [TransformationTree::getTransformationChain].  The [bool] is the return
    value, the list is the [result] vector after the call. *)
Definition getTransformationChain (tree : TransformationTree)
    (from to : string) (result : list TransformationElement)
    : bool * list TransformationElement :=
  let node := RootNode from in
  match seekLoop (S (Z.to_nat (maxSeekDepth tree))) tree to result 0 [node]
  with
  | Some r => r
  | None => (false, result)
  end.

End Tree.

(** ** TransformationMakerBase *)

Section Maker.
Context `{StreamAggregator}.

Record TransformationMakerBase := mkMaker {
  sourceFrame : string;
  targetFrame : string;
  transformationChain : list TransformationElement
}.

(** Modelled from the spec: [setTransformationChain] is defined in
    Transformer.h, which is not part of the sources.  The spec:
    [set_chain(edges)] replaces any prior chain. *)
Definition setTransformationChain (maker : TransformationMakerBase)
    (chain : list TransformationElement) : TransformationMakerBase :=
  {| sourceFrame := sourceFrame maker;
     targetFrame := targetFrame maker;
     transformationChain := chain |}.

(** A run of [getTransformation] yields the elements it sampled, in order,
    next to its result; [None] is the [return false]. *)
Definition Sampled (A : Type) : Type := list TransformationElement * A.

(** [transformation.transform = transformation.transform * tr]. *)
Definition applyTransformation (transformation : Transformation)
    (tr : Transform3d) : Transformation :=
  {| from := from transformation;
     to := to transformation;
     time := time transformation;
     transform := times (transform transformation) tr |}.

(** The [for] loop of [TransformationMakerBase::getTransformation]. *)
Fixpoint composeChain (aggregator : Aggregator)
    (chain : list TransformationElement) (time : Time)
    (doInterpolation : bool) (transformation : Transformation)
    (sampled : list TransformationElement) : Sampled (option Transformation) :=
  match chain with
  | [] => (sampled, Some transformation)
  | it :: rest =>
      match getElementTransformation aggregator it time doInterpolation with
      | None => (sampled ++ [it], None)
      | Some tr =>
          composeChain aggregator rest time doInterpolation
            (applyTransformation transformation tr)
            (sampled ++ [it])
      end
  end.

(** [TransformationMakerBase::getTransformation]. *)
Definition getTransformation (aggregator : Aggregator)
    (maker : TransformationMakerBase) (time : Time) (doInterpolation : bool)
    : Sampled (option Transformation) :=
  let transformation :=
    {| transform := Identity;
       from := sourceFrame maker;
       to := targetFrame maker;
       time := time |} in
  match transformationChain maker with
  | [] => ([], None)
  | _ :: _ =>
      composeChain aggregator (transformationChain maker) time
        doInterpolation transformation []
  end.

End Maker.

(** ** Transformer *)

Section Transformer.
Context `{StreamAggregator}.

Record Transformer := mkTransformer {
  aggregator : Aggregator;
  transformationTree : TransformationTree;
  transformationMakers : list TransformationMakerBase;
  transformToStreamIndex : gmap (string * string) Z
}.

(** [Transformer::registerTransformationStream]: no buffer limit, zero
    period, priority 10. *)
Definition registerTransformationStream (aggregator : Aggregator)
    (from to : string) : Z * Aggregator :=
  registerStream aggregator 0 0 10.

(** The body of the loop over [transformationMakers] in
    [pushDynamicTransformation]: a fresh [trChain], one search, and
    [setTransformationChain] only when the search returns [true]. *)
Definition updateTransformationChain (tree : TransformationTree)
    (maker : TransformationMakerBase) : TransformationMakerBase :=
  let trChain := [] in
  match getTransformationChain tree (sourceFrame maker) (targetFrame maker)
          trChain with
  | (true, trChain) => setTransformationChain maker trChain
  | (false, _) => maker
  end.

(** The block of [pushDynamicTransformation] taken for an unknown
    transformation, up to the second [find].  The sample is not pushed
    yet. *)
Definition registerDynamicTransformation (t : Transformer)
    (tr : Transformation) : Z * Transformer :=
  let (streamIdx, aggregator1) :=
    registerTransformationStream (aggregator t) (from tr) (to tr) in
  let index1 := <[(from tr, to tr) := streamIdx]> (transformToStreamIndex t) in
  let dynamicElement :=
    DynamicTransformationElement (from tr) (to tr) streamIdx in
  let tree1 := addTransformation (transformationTree t) dynamicElement in
  (streamIdx,
   {| aggregator := aggregator1;
      transformationTree := tree1;
      transformationMakers :=
        map (updateTransformationChain tree1) (transformationMakers t);
      transformToStreamIndex := index1 |}).

(** The last statement: [aggregator.push(it->second, tr.time, tr)]. *)
Definition pushSample (t : Transformer) (idx : Z) (tr : Transformation)
    : Transformer :=
  {| aggregator := push idx (time tr) tr (aggregator t);
     transformationTree := transformationTree t;
     transformationMakers := transformationMakers t;
     transformToStreamIndex := transformToStreamIndex t |}.

(** [Transformer::pushDynamicTransformation].  [None] is the failing
    [assert] after the second [find]. *)
Definition pushDynamicTransformation (t : Transformer) (tr : Transformation)
    : option Transformer :=
  match transformToStreamIndex t !! (from tr, to tr) with
  | None =>
      let (_, t1) := registerDynamicTransformation t tr in
      match transformToStreamIndex t1 !! (from tr, to tr) with
      | Some idx => Some (pushSample t1 idx tr)
      | None => None
      end
  | Some idx => Some (pushSample t idx tr)
  end.

(** [Transformer::pushStaticTransformation]. *)
Definition pushStaticTransformation (t : Transformer) (tr : Transformation)
    : Transformer :=
  {| aggregator := aggregator t;
     transformationTree :=
       addTransformation (transformationTree t)
         (StaticTransformationElement (from tr) (to tr) (transform tr));
     transformationMakers := transformationMakers t;
     transformToStreamIndex := transformToStreamIndex t |}.

(** [Transformer::addTransformationChain]. *)
Definition addTransformationChain (t : Transformer) (from to : string)
    (chain : list TransformationElement) : Transformer :=
  {| aggregator := aggregator t;
     transformationTree := transformationTree t;
     transformationMakers :=
       map (fun it =>
              if bool_decide (sourceFrame it = from)
                 && bool_decide (targetFrame it = to)
              then setTransformationChain it chain else it)
           (transformationMakers t);
     transformToStreamIndex := transformToStreamIndex t |}.

End Transformer.

(** ** Vocabulary of the statements *)

Section Vocabulary.
Context `{MathLibrary}.

(** The edges on the way from a node up to the root, leaf side first. *)
Fixpoint edgesToRoot (node : TransformationNode) : list TransformationElement :=
  match node with
  | RootNode _ => []
  | ChildNode _ p e => e :: edgesToRoot p
  end.

(** One expansion step of the search, as the outer loop calls it. *)
Definition expand (tree : TransformationTree) (node : TransformationNode)
    : list TransformationNode :=
  addMatchingTransforms tree (frameName node) node.

(** The design-level description of the search: level 0 is the root, and
    each further level holds the children of the level before, in order. *)
Fixpoint levelNodes (tree : TransformationTree) (from : string) (d : nat)
    : list TransformationNode :=
  match d with
  | O => [RootNode from]
  | S d' => flat_map (expand tree) (levelNodes tree from d')
  end.

(** Nodes the search can build, with their depth. *)
Inductive searchNode (tree : TransformationTree) (from : string)
    : nat -> TransformationNode -> Prop :=
| searchRoot : searchNode tree from O (RootNode from)
| searchChild d p e :
    searchNode tree from d p ->
    In e (availableElements tree) ->
    getSourceFrame e = frameName p ->
    reversesPreviousStep p e = false ->
    searchNode tree from (S d) (ChildNode (getTargetFrame e) p e).

(** [carries chain a b]: read front to back, the chain leaves [a], each
    edge starts where the one before ended, and the last edge enters [b]
    (root-to-leaf order). *)
Fixpoint carries (chain : list TransformationElement) (a b : string) : Prop :=
  match chain with
  | [] => a = b
  | e :: rest => getSourceFrame e = a /\ carries rest (getTargetFrame e) b
  end.

(** [climbs chain a b]: read front to back, the chain starts with the edge
    entering [b], each edge ends where the one before started, and the last
    edge leaves [a] (leaf-to-root order). *)
Fixpoint climbs (chain : list TransformationElement) (a b : string) : Prop :=
  match chain with
  | [] => a = b
  | e :: rest => getTargetFrame e = b /\ climbs rest a (getSourceFrame e)
  end.

(** The order the spec states for a returned vector: its first edge leaves
    [a] and its last edge enters [b]. *)
Definition firstLeavesLastEnters (chain : list TransformationElement)
    (a b : string) : Prop :=
  (exists e, head chain = Some e /\ getSourceFrame e = a) /\
  (exists e, last chain = Some e /\ getTargetFrame e = b).

(** No entry of the list leads into the frame the next entry starts
    from. *)
Fixpoint noTurnBack (chain : list TransformationElement) : Prop :=
  match chain with
  | e1 :: (e2 :: _) as rest =>
      getTargetFrame e1 <> getSourceFrame e2 /\ noTurnBack rest
  | _ => True
  end.

(** No entry of the list is the inverse sibling of a neighbour. *)
Fixpoint noAdjacentInverse (chain : list TransformationElement) : Prop :=
  match chain with
  | e1 :: (e2 :: _) as rest =>
      e2 <> InverseTransformationElement e1 /\
      e1 <> InverseTransformationElement e2 /\ noAdjacentInverse rest
  | _ => True
  end.

(** What a search started at level [d] finds: the first match in the first
    level that has one, provided the level is reached within
    [maxSeekDepth]. *)
Definition foundAt (tree : TransformationTree) (from to : string)
    (d k : nat) (node : TransformationNode) : Prop :=
  (d <= k)%nat /\ Z.of_nat k < maxSeekDepth tree /\
  In node (levelNodes tree from (S k)) /\ frameName node = to /\
  forall k' n, (d <= k' < k)%nat ->
    In n (levelNodes tree from (S k')) -> frameName n <> to.

(** No level after [d] and within [maxSeekDepth] has a node named [to]. *)
Definition notFoundFrom (tree : TransformationTree) (from to : string)
    (d : nat) : Prop :=
  forall k n, (d <= k)%nat -> Z.of_nat k < maxSeekDepth tree ->
    In n (levelNodes tree from (S k)) -> frameName n <> to.

(** The elements an expansion of [node] keeps. *)
Definition keptBy (from : string) (node : TransformationNode)
    (it : TransformationElement) : bool :=
  bool_decide (getSourceFrame it = from) && negb (reversesPreviousStep node it).

End Vocabulary.

(** ** Vocabulary of the further statements about the search *)

Section SearchVocabulary.
Context `{MathLibrary}.

(** A chain the search could return for [(from, to)], in the order it
    returns them (leaf side first): it is not empty, its first edge enters
    [to] and its last edge leaves [from], no entry leads into the frame the
    next entry starts from, its edges are elements of the tree, and it has
    at most [maxSeekDepth] edges. *)
Definition guardedChain (tree : TransformationTree) (from to : string)
    (chain : list TransformationElement) : Prop :=
  chain <> [] /\ climbs chain from to /\ noTurnBack chain /\
  (forall e, In e chain -> In e (availableElements tree)) /\
  Z.of_nat (length chain) <= maxSeekDepth tree.

(** The entries [addTransformation] appends for a list of elements. *)
Definition withInverses (elements : list TransformationElement)
    : list TransformationElement :=
  flat_map (fun e => [e; InverseTransformationElement e]) elements.

(** [y] leads from the target frame of [x] back to its source frame. *)
Definition swapped (x y : TransformationElement) : Prop :=
  getSourceFrame y = getTargetFrame x /\ getTargetFrame y = getSourceFrame x.

(** Read front to back, no entry starts from the frame the next entry
    leads into ([noTurnBack] for the reversed list). *)
Fixpoint noTurnBackRev (chain : list TransformationElement) : Prop :=
  match chain with
  | e1 :: (e2 :: _) as rest =>
      getTargetFrame e2 <> getSourceFrame e1 /\ noTurnBackRev rest
  | _ => True
  end.

End SearchVocabulary.

(** Requests a caller can make of a transformer, for statements about
    whole runs. *)
Section Requests.
Context `{StreamAggregator}.

(** The samples of all elements of a chain, if every one has a sample. *)
Fixpoint sampleAll (aggregator : Aggregator)
    (chain : list TransformationElement) (time : Time)
    (doInterpolation : bool) : option (list Transform3d) :=
  match chain with
  | [] => Some []
  | e :: rest =>
      match getElementTransformation aggregator e time doInterpolation with
      | Some tr =>
          match sampleAll aggregator rest time doInterpolation with
          | Some trs => Some (tr :: trs)
          | None => None
          end
      | None => None
      end
  end.

(** [Identity * T1 * ... * Tk], multiplying on the right. *)
Definition product (trs : list Transform3d) : Transform3d :=
  fold_left times trs Identity.

Inductive Request :=
| PushDynamic (tr : Transformation)
| PushStatic (tr : Transformation)
| AddChain (from to : string) (chain : list TransformationElement).

Definition serve (t : Transformer) (r : Request) : option Transformer :=
  match r with
  | PushDynamic tr => pushDynamicTransformation t tr
  | PushStatic tr => Some (pushStaticTransformation t tr)
  | AddChain a b chain => Some (addTransformationChain t a b chain)
  end.

Fixpoint serveAll (t : Transformer) (rs : list Request) : option Transformer :=
  match rs with
  | [] => Some t
  | r :: rest =>
      match serve t r with
      | Some t' => serveAll t' rest
      | None => None
      end
  end.

(** The stream-index table maps different pairs to different indices, and
    only to indices the aggregator has handed out ([issued] says which
    those are). *)
Definition tableInjective (issued : Aggregator -> Z -> Prop)
    (t : Transformer) : Prop :=
  (forall key idx,
     transformToStreamIndex t !! key = Some idx -> issued (aggregator t) idx) /\
  (forall key1 key2 idx,
     transformToStreamIndex t !! key1 = Some idx ->
     transformToStreamIndex t !! key2 = Some idx -> key1 = key2).

End Requests.

(** ** Vocabulary of the further statements about runs *)

Section RunVocabulary.
Context `{StreamAggregator}.

(** A request that leaves the makers alone: a static push, or a dynamic
    push for a pair the stream-index table already knows. *)
Definition quiet (table : gmap (string * string) Z) (r : Request) : Prop :=
  match r with
  | PushStatic _ => True
  | PushDynamic tr => is_Some (table !! (from tr, to tr))
  | AddChain _ _ _ => False
  end.

(** The pairs of the dynamic samples of a run. *)
Fixpoint dynamicPairs (rs : list Request) : list (string * string) :=
  match rs with
  | [] => []
  | PushDynamic tr :: rest => (from tr, to tr) :: dynamicPairs rest
  | _ :: rest => dynamicPairs rest
  end.

(** A push of a sample, static or dynamic. *)
Definition isPush (r : Request) : Prop :=
  match r with
  | AddChain _ _ _ => False
  | _ => True
  end.

(** The maker's chain is empty, or it is a chain the search could return
    for the maker's pair in this tree. *)
Definition makerResolved (tree : TransformationTree)
    (maker : TransformationMakerBase) : Prop :=
  transformationChain maker = [] \/
  guardedChain tree (sourceFrame maker) (targetFrame maker)
    (transformationChain maker).

(** Every entry of the stream-index table has its dynamic element in the
    tree. *)
Definition tableInTree (t : Transformer) : Prop :=
  forall a b idx,
    transformToStreamIndex t !! (a, b) = Some idx ->
    In (DynamicTransformationElement a b idx)
       (availableElements (transformationTree t)).

(** The pairs of the makers, in the order of the maker list. *)
Definition makerFrames (t : Transformer) : list (string * string) :=
  map (fun maker => (sourceFrame maker, targetFrame maker))
      (transformationMakers t).

End RunVocabulary.

(** ** A concrete environment for running the scenarios

    Translations along three integer axes stand in for the rigid transforms,
    and a list of sample streams for the aggregator (a query returns the
    latest sample not after the query time).  They are used only to evaluate
    the definitions on concrete inputs. *)

Module Scenario.

Definition Translation : Type := Z * Z * Z.

Definition translate (x y z : Z) : Translation := (x, y, z).

Definition addTranslation (a b : Translation) : Translation :=
  match a, b with
  | (ax, ay, az), (bx, by_, bz) => (ax + bx, ay + by_, az + bz)
  end.

Definition negTranslation (a : Translation) : Translation :=
  match a with
  | (ax, ay, az) => (- ax, - ay, - az)
  end.

#[export] Instance translations : MathLibrary := {|
  Transform3d := Translation;
  Identity := translate 0 0 0;
  times := addTranslation;
  inverse := negTranslation
|}.

Definition Streams : Type := list (list (Z * Translation)).

Fixpoint latestBefore (samples : list (Z * Translation)) (t : Z)
    (best : option (Z * Translation)) : option Translation :=
  match samples with
  | [] => snd <$> best
  | (ts, v) :: rest =>
      if ts <=? t then
        match best with
        | Some (tb, _) =>
            if tb <=? ts then latestBefore rest t (Some (ts, v))
            else latestBefore rest t best
        | None => latestBefore rest t (Some (ts, v))
        end
      else latestBefore rest t best
  end.

#[export] Instance streams : StreamAggregator := {|
  Aggregator := Streams;
  registerStream := fun a _ _ _ => (Z.of_nat (length a), a ++ [[]]);
  push := fun idx t tr a =>
    if idx <? 0 then a
    else alter (fun s => s ++ [(t, transform tr)]) (Z.to_nat idx) a;
  queryStream := fun a idx t _ =>
    if idx <? 0 then None
    else match a !! Z.to_nat idx with
         | Some s => latestBefore s t None
         | None => None
         end
|}.

Definition static (a b : string) (x y z : Z) : TransformationElement :=
  StaticTransformationElement a b (translate x y z).

Definition emptyTree : TransformationTree :=
  {| availableElements := []; maxSeekDepth := 20 |}.

(** S1/S2: static A->B and B->C. *)
Definition treeABC : TransformationTree :=
  addTransformation
    (addTransformation emptyTree (static "A" "B" 1 0 0))
    (static "B" "C" 0 1 0).

(** S4: static A->B only. *)
Definition treeAB : TransformationTree :=
  addTransformation emptyTree (static "A" "B" 1 0 0).

(** A triangle A->B, B->C, C->A. *)
Definition treeCycle : TransformationTree :=
  addTransformation treeABC (static "C" "A" 0 0 1).

(** An aggregator without streams. *)
Definition noStreams : @Aggregator translations streams := [].

Definition emptyTransformer : Transformer :=
  {| aggregator := noStreams;
     transformationTree := emptyTree;
     transformationMakers := [];
     transformToStreamIndex := ∅ |}.

(** The chain the search returns from A to C in [treeABC]. *)
Definition chainAC : list TransformationElement :=
  [static "B" "C" 0 1 0; static "A" "B" 1 0 0].

Definition makerAC : TransformationMakerBase := mkMaker "A" "C" chainAC.

(** A chain whose first element is a dynamic element without data. *)
Definition makerNoData : TransformationMakerBase :=
  mkMaker "A" "C" [DynamicTransformationElement "B" "C" 0; static "A" "B" 1 0 0].

(** S3 before the dynamic push: static A->B is known and a maker for
    (A, C) is registered with an empty chain. *)
Definition waiting : Transformer :=
  {| aggregator := noStreams;
     transformationTree :=
       addTransformation emptyTree (static "A" "B" 0 0 0);
     transformationMakers := [mkMaker "A" "C" []];
     transformToStreamIndex := ∅ |}.

Definition sampleBC : Transformation :=
  mkTransformation "B" "C" 10 (translate 0 0 5).

(** A maker for (A, Z) that was given a chain from outside, in a
    transformer whose tree has no way from A to Z. *)
Definition supplied : Transformer :=
  addTransformationChain
    {| aggregator := noStreams;
       transformationTree := emptyTree;
       transformationMakers := [mkMaker "A" "Z" []];
       transformToStreamIndex := ∅ |}
    "A" "Z" [static "A" "Z" 1 0 0].

(** The indices the stand-in aggregator has handed out. *)
Definition issuedStreams (a : @Aggregator translations streams) (i : Z)
    : Prop :=
  0 <= i < Z.of_nat (length (a : Streams)).

Definition afterPush (t : Transformer) (tr : Transformation) : Transformer :=
  match pushDynamicTransformation t tr with
  | Some t' => t'
  | None => t
  end.

(** Two elements from A to B, added one after the other. *)
Definition treeTwice : TransformationTree :=
  addTransformation treeAB (static "A" "B" 2 0 0).

Definition afterRun (t : Transformer) (rs : list Request) : Transformer :=
  match serveAll t rs with
  | Some t' => t'
  | None => t
  end.

Definition sampleCD : Transformation :=
  mkTransformation "C" "D" 0 (translate 1 0 0).

Definition laterSampleBC : Transformation :=
  mkTransformation "B" "C" 20 (translate 0 0 6).

Definition sampleDE : Transformation :=
  mkTransformation "D" "E" 5 (translate 0 2 0).

(** After S3: a static push and a further sample of the known pair. *)
Definition laterPushes : list Request :=
  [PushStatic sampleCD; PushDynamic laterSampleBC].

(** Samples of two pairs, the first pair twice. *)
Definition twoStreams : list Request :=
  [PushDynamic sampleBC; PushDynamic sampleDE; PushDynamic laterSampleBC].

Definition makerBC : TransformationMakerBase :=
  mkMaker "B" "C" [static "B" "C" 0 1 0].

Definition resultBC : Transformation :=
  mkTransformation "B" "C" 0 (translate 0 1 0).

(** The front part of the chain of [makerNoData]. *)
Definition makerNoDataFront : TransformationMakerBase :=
  mkMaker "B" "C" [DynamicTransformationElement "B" "C" 0].

(** Three makers, the first and the last for the same pair. *)
Definition threeMakers : Transformer :=
  {| aggregator := noStreams;
     transformationTree := emptyTree;
     transformationMakers :=
       [mkMaker "A" "Z" []; mkMaker "A" "C" chainAC; mkMaker "A" "Z" []];
     transformToStreamIndex := ∅ |}.

Definition chainAZ : list TransformationElement := [static "A" "Z" 1 0 0].

End Scenario.

(** ** The search *)

Section SearchFacts.
Context `{MathLibrary}.
Implicit Types (tree : TransformationTree) (node : TransformationNode).
Implicit Types (chain result : list TransformationElement).

Lemma collectChain_edgesToRoot node result :
  collectChain node result = result ++ edgesToRoot node.
Proof.
  revert result; induction node as [name | name p IH e]; intros result; simpl.
  - by rewrite app_nil_r.
  - rewrite IH, <- app_assoc. reflexivity.
Qed.

Lemma addMatchingTransforms_loop_filter elements from node childs :
  addMatchingTransforms_loop elements from node childs =
  childs ++ map (fun it => ChildNode (getTargetFrame it) node it)
                (List.filter (keptBy from node) elements).
Proof.
  revert childs; induction elements as [| it rest IH]; intros childs; simpl.
  - by rewrite app_nil_r.
  - unfold keptBy at 1.
    destruct (bool_decide (getSourceFrame it = from)); simpl; [| apply IH].
    destruct (reversesPreviousStep node it); simpl; [apply IH |].
    rewrite IH, <- app_assoc. reflexivity.
Qed.

Lemma expand_filter tree node :
  expand tree node =
  map (fun it => ChildNode (getTargetFrame it) node it)
      (List.filter (keptBy (frameName node) node) (availableElements tree)).
Proof.
  unfold expand, addMatchingTransforms.
  by rewrite addMatchingTransforms_loop_filter.
Qed.

Lemma expand_searchNode tree from d node child :
  searchNode tree from d node ->
  In child (expand tree node) ->
  searchNode tree from (S d) child.
Proof.
  intros Hnode Hin. rewrite expand_filter in Hin.
  apply in_map_iff in Hin as (it & <- & Hit).
  apply filter_In in Hit as [Hel Hkept].
  unfold keptBy in Hkept. apply andb_true_iff in Hkept as [Hsrc Hrev].
  apply bool_decide_eq_true in Hsrc. apply negb_true_iff in Hrev.
  by constructor.
Qed.

Lemma levelNodes_searchNode tree from d node :
  In node (levelNodes tree from d) -> searchNode tree from d node.
Proof.
  revert node; induction d as [| d IH]; intros node Hin; simpl in Hin.
  - destruct Hin as [<- | []]. constructor.
  - apply in_flat_map in Hin as (p & Hp & Hchild).
    eapply expand_searchNode; eauto.
Qed.

Lemma searchNode_length tree from d node :
  searchNode tree from d node -> length (edgesToRoot node) = d.
Proof. induction 1; simpl; congruence. Qed.

Lemma searchNode_available tree from d node :
  searchNode tree from d node ->
  forall e, In e (edgesToRoot node) -> In e (availableElements tree).
Proof.
  induction 1 as [| d p e Hp IH Hin Hsrc Hrev]; simpl; intros e' He'.
  - destruct He'.
  - destruct He' as [<- | He']; auto.
Qed.

Lemma searchNode_climbs tree from d node :
  searchNode tree from d node ->
  climbs (edgesToRoot node) from (frameName node).
Proof.
  induction 1 as [| d p e Hp IH Hin Hsrc Hrev]; simpl; [done |].
  split; [done |]. by rewrite Hsrc.
Qed.

Lemma searchNode_parent_source tree from d name p e :
  searchNode tree from d (ChildNode name p e) ->
  getSourceFrame e = frameName p.
Proof. by inversion 1. Qed.

Lemma searchNode_noTurnBack tree from d node :
  searchNode tree from d node -> noTurnBack (edgesToRoot node).
Proof.
  induction 1 as [| d p e Hp IH Hin Hsrc Hrev]; simpl; [done |].
  destruct p as [name | name pp pe]; simpl in *; [done |].
  split; [| exact IH].
  unfold reversesPreviousStep in Hrev; simpl in Hrev.
  apply bool_decide_eq_false in Hrev.
  apply searchNode_parent_source in Hp. rewrite Hp. congruence.
Qed.

Lemma climbs_app chain1 chain2 a b c :
  climbs chain1 b c -> climbs chain2 a b -> climbs (chain1 ++ chain2) a c.
Proof.
  revert c; induction chain1 as [| e rest IH]; intros c; simpl.
  - by intros ->.
  - intros [Ht Hrest] H2. split; [done |]. by apply IH.
Qed.

Lemma carries_app chain1 chain2 a b c :
  carries chain1 a b -> carries chain2 b c -> carries (chain1 ++ chain2) a c.
Proof.
  revert a; induction chain1 as [| e rest IH]; intros a; simpl.
  - by intros ->.
  - intros [Hs Hrest] H2. split; [done |]. by apply IH.
Qed.

Lemma climbs_carries_rev chain a b :
  climbs chain a b -> carries (rev chain) a b.
Proof.
  revert b; induction chain as [| e rest IH]; intros b; simpl; [done |].
  intros [Ht Hrest]. eapply carries_app; [by apply IH |].
  simpl. by split.
Qed.

Lemma climbs_head chain a b :
  chain <> [] -> climbs chain a b ->
  exists e, head chain = Some e /\ getTargetFrame e = b.
Proof. destruct chain as [| e rest]; [done |]. intros _ [Ht _]. by exists e. Qed.

Lemma climbs_last chain a b :
  chain <> [] -> climbs chain a b ->
  exists e, last chain = Some e /\ getSourceFrame e = a.
Proof.
  revert b; induction chain as [| e rest IH]; intros b Hne; [done |].
  intros [Ht Hrest]. destruct rest as [| e' rest'].
  - simpl in Hrest. exists e. by split.
  - destruct (IH (getSourceFrame e)) as (x & Hx & Hsrc); [done | done |].
    exists x. split; [| done]. by rewrite last_cons, Hx.
Qed.

Lemma noTurnBack_noAdjacentInverse chain :
  noTurnBack chain -> noAdjacentInverse chain.
Proof.
  induction chain as [| e1 [| e2 rest] IH]; simpl; try done.
  intros [Hne Hrest]. repeat split.
  - intros ->. by apply Hne.
  - intros ->. by apply Hne.
  - by apply IH.
Qed.

Lemma checkForMatchingChildFrame_app to (l1 l2 : list TransformationNode) :
  checkForMatchingChildFrame to (l1 ++ l2) =
  match checkForMatchingChildFrame to l1 with
  | Some c => Some c
  | None => checkForMatchingChildFrame to l2
  end.
Proof.
  induction l1 as [| it rest IH]; simpl; [done |].
  by destruct (bool_decide (frameName it = to)).
Qed.

Lemma checkForMatchingChildFrame_Some to (l : list TransformationNode) c :
  checkForMatchingChildFrame to l = Some c -> In c l /\ frameName c = to.
Proof.
  induction l as [| it rest IH]; simpl; [done |].
  destruct (bool_decide (frameName it = to)) eqn:E.
  - intros [= <-]. apply bool_decide_eq_true in E. auto.
  - intros Hc. destruct (IH Hc). auto.
Qed.

Lemma checkForMatchingChildFrame_None to (l : list TransformationNode) :
  checkForMatchingChildFrame to l = None ->
  forall n, In n l -> frameName n <> to.
Proof.
  induction l as [| it rest IH]; simpl; [done |].
  destruct (bool_decide (frameName it = to)) eqn:E; [done |].
  apply bool_decide_eq_false in E.
  intros Hc n [<- | Hn]; auto.
Qed.

(** The inner loop is a first-match search through the children of the
    whole level. *)
Lemma seekLevel_flat_map tree to result (curLevel nextLevel : list TransformationNode) :
  seekLevel tree to result curLevel nextLevel =
  match checkForMatchingChildFrame to (flat_map (expand tree) curLevel) with
  | Some candidate => inl (collectChain candidate result)
  | None => inr (nextLevel ++ flat_map (expand tree) curLevel)
  end.
Proof.
  revert nextLevel; induction curLevel as [| it rest IH]; intros nextLevel.
  - simpl. by rewrite app_nil_r.
  - simpl. rewrite checkForMatchingChildFrame_app. fold (expand tree it).
    destruct (checkForMatchingChildFrame to (expand tree it)); [done |].
    rewrite IH, <- app_assoc. reflexivity.
Qed.

Lemma seekLoop_total tree to result fuel i (curLevel : list TransformationNode) :
  (Z.to_nat (maxSeekDepth tree - i) < fuel)%nat ->
  is_Some (seekLoop fuel tree to result i curLevel).
Proof.
  revert i curLevel; induction fuel as [| fuel IH]; intros i curLevel Hfuel;
    [lia |].
  simpl. destruct (i <? maxSeekDepth tree) eqn:Hi; simpl; [| by eexists].
  apply Z.ltb_lt in Hi.
  destruct (bool_decide (curLevel = [])); simpl; [by eexists |].
  destruct (seekLevel tree to result curLevel []); [by eexists |].
  apply IH. lia.
Qed.

Lemma levelNodes_nil tree from d k :
  levelNodes tree from d = [] -> (d <= k)%nat -> levelNodes tree from k = [].
Proof.
  intros Hnil. induction 1 as [| k Hle IH]; [done |].
  simpl. by rewrite IH.
Qed.

Lemma seekLoop_levels tree from to result fuel d :
  (Z.to_nat (maxSeekDepth tree - Z.of_nat d) < fuel)%nat ->
  (exists k node, foundAt tree from to d k node /\
     seekLoop fuel tree to result (Z.of_nat d) (levelNodes tree from d) =
     Some (true, result ++ edgesToRoot node)) \/
  (notFoundFrom tree from to d /\
     seekLoop fuel tree to result (Z.of_nat d) (levelNodes tree from d) =
     Some (false, result)).
Proof.
  revert d; induction fuel as [| fuel IH]; intros d Hfuel; [lia |].
  simpl. destruct (Z.of_nat d <? maxSeekDepth tree) eqn:Hi; simpl.
  2: { right. split; [| done]. intros k n Hk Hlt. apply Z.ltb_ge in Hi. lia. }
  apply Z.ltb_lt in Hi.
  destruct (bool_decide (levelNodes tree from d = [])) eqn:Hempty; simpl.
  { right. split; [| done]. apply bool_decide_eq_true in Hempty.
    intros k n Hk _ Hn.
    rewrite (levelNodes_nil tree from d (S k)) in Hn by (done || lia).
    destruct Hn. }
  rewrite seekLevel_flat_map. simpl.
  change (flat_map (expand tree) (levelNodes tree from d))
    with (levelNodes tree from (S d)).
  destruct (checkForMatchingChildFrame to (levelNodes tree from (S d)))
    as [candidate |] eqn:Hcheck.
  - left. exists d, candidate.
    apply checkForMatchingChildFrame_Some in Hcheck as [Hin Hname].
    split; [| by rewrite collectChain_edgesToRoot].
    repeat split; try done; try lia.
  - pose proof (checkForMatchingChildFrame_None _ _ Hcheck) as Hnone.
    replace (Z.of_nat d + 1) with (Z.of_nat (S d)) by lia.
    destruct (IH (S d)) as [(k & node & Hfound & Heq) | [Hnot Heq]]; [lia | |].
    + left. exists k, node. split; [| done].
      destruct Hfound as (Hk & Hlt & Hin & Hname & Hfirst).
      repeat split; try done; try lia.
      intros k' n Hk' Hn. destruct (decide (k' = d)) as [-> | Hne].
      * by apply Hnone.
      * apply (Hfirst k'); [lia | done].
    + right. split; [| done].
      intros k n Hk Hlt Hn. destruct (decide (k = d)) as [-> | Hne].
      * by apply Hnone.
      * apply (Hnot k); [lia | done | done].
Qed.

(** The whole search: it always returns, and either reports the first match
    of the level-by-level description or leaves [result] alone. *)
Lemma getTransformationChain_levels tree from to result :
  (exists k node, foundAt tree from to 0 k node /\
     getTransformationChain tree from to result =
     (true, result ++ edgesToRoot node)) \/
  (notFoundFrom tree from to 0 /\
     getTransformationChain tree from to result = (false, result)).
Proof.
  unfold getTransformationChain.
  destruct (seekLoop_levels tree from to result
              (S (Z.to_nat (maxSeekDepth tree))) 0)
    as [(k & node & Hfound & Heq) | [Hnot Heq]].
  - simpl. lia.
  - left. exists k, node. split; [done |].
    change 0 with (Z.of_nat 0).
    change [RootNode from] with (levelNodes tree from 0). by rewrite Heq.
  - right. split; [done |].
    change 0 with (Z.of_nat 0).
    change [RootNode from] with (levelNodes tree from 0). by rewrite Heq.
Qed.

(** A successful search returns the path of a node it built. *)
Lemma getTransformationChain_true tree from to result out :
  getTransformationChain tree from to result = (true, out) ->
  exists k node,
    Z.of_nat k < maxSeekDepth tree /\
    searchNode tree from (S k) node /\ frameName node = to /\
    out = result ++ edgesToRoot node.
Proof.
  intros Hget.
  destruct (getTransformationChain_levels tree from to result)
    as [(k & node & Hfound & Heq) | [Hnot Heq]]; [| congruence].
  rewrite Hget in Heq. injection Heq as ->.
  destruct Hfound as (_ & Hlt & Hin & Hname & _).
  exists k, node. repeat split; try done.
  by apply levelNodes_searchNode.
Qed.

(** Everything the claims need to know about a returned chain. *)
Lemma getTransformationChain_chain tree from to result out :
  getTransformationChain tree from to result = (true, out) ->
  exists chain,
    out = result ++ chain /\
    (1 <= length chain)%nat /\ Z.of_nat (length chain) <= maxSeekDepth tree /\
    climbs chain from to /\ noTurnBack chain /\
    forall e, In e chain -> In e (availableElements tree).
Proof.
  intros Hget.
  apply getTransformationChain_true in Hget as (k & node & Hlt & Hnode & Hname & ->).
  exists (edgesToRoot node). split; [done |].
  pose proof (searchNode_length _ _ _ _ Hnode) as Hlen.
  repeat split.
  - lia.
  - lia.
  - rewrite <- Hname. by eapply searchNode_climbs.
  - by eapply searchNode_noTurnBack.
  - by eapply searchNode_available.
Qed.

Lemma foundAt_not_notFoundFrom tree from to k node :
  foundAt tree from to 0 k node -> ~ notFoundFrom tree from to 0.
Proof.
  intros (Hk & Hlt & Hin & Hname & _) Hnot.
  by apply (Hnot k node).
Qed.

Lemma addTransformation_elements tree element :
  availableElements (addTransformation tree element) =
  availableElements tree ++ [element; InverseTransformationElement element].
Proof. unfold addTransformation; simpl. by rewrite <- app_assoc. Qed.

Lemma fold_addTransformation_elements elements tree :
  availableElements (fold_left addTransformation elements tree) =
  availableElements tree ++
    flat_map (fun e => [e; InverseTransformationElement e]) elements.
Proof.
  revert tree; induction elements as [| e rest IH]; intros tree; simpl.
  - by rewrite app_nil_r.
  - rewrite IH, addTransformation_elements, <- app_assoc. reflexivity.
Qed.

Lemma noTurnBackRev_snoc chain e :
  noTurnBackRev chain ->
  (forall x, last chain = Some x -> getTargetFrame e <> getSourceFrame x) ->
  noTurnBackRev (chain ++ [e]).
Proof.
  induction chain as [| e1 [| e2 rest] IH]; simpl; intros Hturn Hlast.
  - done.
  - split; [by apply Hlast | done].
  - destruct Hturn as [Hne Hrest]. split; [done |].
    apply IH; [done |]. intros x Hx. apply Hlast. exact Hx.
Qed.

(** A vector that, leaf side first, never leads into the frame its next
    entry starts from is, read in the order of travel, a chain in which no
    edge leads into the frame the edge before it started from. *)
Lemma noTurnBack_travel_order chain :
  noTurnBack chain -> noTurnBackRev (rev chain).
Proof.
  induction chain as [| e1 [| e2 rest] IH]; simpl; intros Hturn; [done.. |].
  destruct Hturn as [Hne Hrest].
  apply noTurnBackRev_snoc; [by apply IH |].
  intros x. rewrite last_snoc. by intros [= <-].
Qed.

Lemma noTurnBackRev_noAdjacentInverse chain :
  noTurnBackRev chain -> noAdjacentInverse chain.
Proof.
  induction chain as [| e1 [| e2 rest] IH]; simpl; try done.
  intros [Hne Hrest]. repeat split.
  - intros ->. by apply Hne.
  - intros ->. by apply Hne.
  - by apply IH.
Qed.

(** ** Claims about the tree and the search *)

(** C5. [addTransformation] appends the element and then an inverse element
    wrapping it, whose source and target frames are the element's target
    and source; nothing is looked up or removed, so a run of additions
    leaves every earlier entry in place, repeated ones included. *)
Theorem addTransformation_appends_pair tree element :
  availableElements (addTransformation tree element) =
    availableElements tree ++ [element; InverseTransformationElement element] /\
  getSourceFrame (InverseTransformationElement element) = getTargetFrame element /\
  getTargetFrame (InverseTransformationElement element) = getSourceFrame element /\
  maxSeekDepth (addTransformation tree element) = maxSeekDepth tree /\
  forall elements,
    availableElements (fold_left addTransformation elements tree) =
    availableElements tree ++
      flat_map (fun e => [e; InverseTransformationElement e]) elements.
Proof.
  split; [apply addTransformation_elements |].
  do 3 (split; [reflexivity |]).
  intros elements. apply fold_addTransformation_elements.
Qed.

(** C2 (amended). A successful search appends a non-empty chain to [result]
    in leaf-to-root order: its first edge enters [to], every edge starts
    where the next one ends, and its last edge leaves [from]; reversed, it
    is the root-to-leaf chain from [from] to [to].  All its edges are
    elements of the tree. *)
Theorem getTransformationChain_leaf_to_root tree from to result out :
  getTransformationChain tree from to result = (true, out) ->
  exists chain,
    out = result ++ chain /\ chain <> [] /\
    climbs chain from to /\
    (exists e, head chain = Some e /\ getTargetFrame e = to) /\
    (exists e, last chain = Some e /\ getSourceFrame e = from) /\
    carries (rev chain) from to /\
    forall e, In e chain -> In e (availableElements tree).
Proof.
  intros Hget.
  apply getTransformationChain_chain in Hget
    as (chain & -> & Hlen & _ & Hclimbs & _ & Hin).
  assert (chain <> []) as Hne by (destruct chain; simpl in Hlen; [lia | done]).
  exists chain. repeat split; try done.
  - by eapply climbs_head.
  - by eapply climbs_last.
  - by apply climbs_carries_rev.
Qed.

(** C6. An expansion of [node] makes one child per element whose source
    frame is [from], in the order of the tree, and skips an element exactly
    when the node has a parent whose frame name is the element's target
    frame.  Consequently, in a chain the search returns, read in the order
    it is travelled from [from] to [to] (the vector holds it leaf side
    first, so this is the reversed vector), there are no two consecutive
    edges where the second one's target frame is the frame the first one
    started from; in particular an edge is never next to its inverse
    sibling, in the order of travel or in the vector. *)
Theorem loop_guard_skips_reversal tree :
  (forall from node,
     addMatchingTransforms tree from node =
     map (fun it => ChildNode (getTargetFrame it) node it)
         (List.filter
            (fun it => bool_decide (getSourceFrame it = from)
                       && negb (reversesPreviousStep node it))
            (availableElements tree))) /\
  (forall node it,
     reversesPreviousStep node it = true <->
     exists p, parent node = Some p /\ frameName p = getTargetFrame it) /\
  (forall from to result out,
     getTransformationChain tree from to result = (true, out) ->
     exists chain,
       out = result ++ chain /\
       carries (rev chain) from to /\
       noTurnBackRev (rev chain) /\ noAdjacentInverse (rev chain) /\
       noTurnBack chain /\ noAdjacentInverse chain).
Proof.
  split; [| split].
  - intros from node. unfold addMatchingTransforms.
    by rewrite addMatchingTransforms_loop_filter.
  - intros node it. unfold reversesPreviousStep.
    destruct (parent node) as [p |].
    + rewrite bool_decide_eq_true. split.
      * intros Hp. by exists p.
      * by intros (p' & [= <-] & Hname).
    + split; [done |]. by intros (p & Hp & _).
  - intros from to result out Hget.
    apply getTransformationChain_chain in Hget
      as (chain & -> & _ & _ & Hclimbs & Hturn & _).
    exists chain. split; [done |].
    pose proof (noTurnBack_travel_order chain Hturn) as Htravel.
    split; [by apply climbs_carries_rev |].
    split; [done |].
    split; [by apply noTurnBackRev_noAdjacentInverse |].
    split; [done |]. by apply noTurnBack_noAdjacentInverse.
Qed.

(** C7. The search always returns.  A chain it returns has between one and
    [maxSeekDepth] edges; when no level within [maxSeekDepth] holds a node
    named [to], and in particular when a level is empty before one does,
    it returns [false] and leaves [result] as it was. *)
Theorem getTransformationChain_bounded tree from to result :
  is_Some (seekLoop (S (Z.to_nat (maxSeekDepth tree))) tree to result 0
             [RootNode from]) /\
  (forall out,
     getTransformationChain tree from to result = (true, out) ->
     exists chain k node,
       out = result ++ chain /\
       (1 <= length chain)%nat /\ Z.of_nat (length chain) <= maxSeekDepth tree /\
       foundAt tree from to 0 k node /\ length chain = S k) /\
  (notFoundFrom tree from to 0 ->
     getTransformationChain tree from to result = (false, result)) /\
  (forall d,
     levelNodes tree from d = [] ->
     (forall k n, (1 <= k < d)%nat -> In n (levelNodes tree from k) ->
        frameName n <> to) ->
     getTransformationChain tree from to result = (false, result)) /\
  (fst (getTransformationChain tree from to result) = false ->
     getTransformationChain tree from to result = (false, result)).
Proof.
  assert (notFoundFrom tree from to 0 ->
          getTransformationChain tree from to result = (false, result))
    as Hnone.
  { intros Hnot.
    destruct (getTransformationChain_levels tree from to result)
      as [(k & node & Hfound & _) | [_ Heq]]; [| done].
    by apply foundAt_not_notFoundFrom in Hfound. }
  split; [apply seekLoop_total; lia |].
  split; [| split; [exact Hnone | split]].
  - intros out Hget.
    destruct (getTransformationChain_levels tree from to result)
      as [(k & node & Hfound & Heq) | [_ Heq]]; [| congruence].
    rewrite Hget in Heq. injection Heq as ->.
    exists (edgesToRoot node), k, node.
    assert (length (edgesToRoot node) = S k) as Hlen.
    { destruct Hfound as (_ & _ & Hin & _).
      eapply searchNode_length, levelNodes_searchNode, Hin. }
    split; [done |]. split; [lia |]. split; [| by split].
    destruct Hfound as (Hk & Hlt & Hrest). lia.
  - intros d Hnil Hbelow. apply Hnone.
    intros k n _ _ Hn. destruct (decide (S k < d)%nat) as [Hlt | Hge].
    + apply (Hbelow (S k) n); [lia | done].
    + rewrite (levelNodes_nil tree from d (S k)) in Hn by (done || lia).
      destruct Hn.
  - intros Hfst.
    destruct (getTransformationChain_levels tree from to result)
      as [(k & node & _ & Heq) | [_ Heq]]; [| done].
    rewrite Heq in Hfst. discriminate.
Qed.

End SearchFacts.

(** ** The maker *)

Section MakerFacts.
Context `{StreamAggregator}.
Implicit Types (chain : list TransformationElement).

Lemma composeChain_all aggregator chain atTime doInterpolation transformation
    sampled trs :
  sampleAll aggregator chain atTime doInterpolation = Some trs ->
  composeChain aggregator chain atTime doInterpolation transformation sampled =
  (sampled ++ chain,
   Some {| from := from transformation;
           to := to transformation;
           time := time transformation;
           transform := fold_left times trs (transform transformation) |}).
Proof.
  revert transformation sampled trs.
  induction chain as [| e rest IH]; intros transformation sampled trs; simpl.
  - intros [= <-]. rewrite app_nil_r. by destruct transformation.
  - destruct (getElementTransformation aggregator e atTime doInterpolation)
      as [tr |]; [| done].
    destruct (sampleAll aggregator rest atTime doInterpolation) as [trs' |] eqn:E;
      [| done].
    intros [= <-]. rewrite (IH _ _ trs' eq_refl). simpl.
    by rewrite <- app_assoc.
Qed.

Lemma composeChain_stops aggregator pre e post atTime doInterpolation
    transformation sampled trs :
  sampleAll aggregator pre atTime doInterpolation = Some trs ->
  getElementTransformation aggregator e atTime doInterpolation = None ->
  composeChain aggregator (pre ++ e :: post) atTime doInterpolation
    transformation sampled =
  (sampled ++ pre ++ [e], None).
Proof.
  revert transformation sampled trs.
  induction pre as [| x rest IH]; intros transformation sampled trs; simpl.
  - intros _ ->. done.
  - destruct (getElementTransformation aggregator x atTime doInterpolation)
      as [tr |]; [| done].
    destruct (sampleAll aggregator rest atTime doInterpolation) as [trs' |] eqn:E;
      [| done].
    intros _ He. rewrite (IH _ _ trs' eq_refl He).
    by rewrite <- app_assoc.
Qed.

Lemma sampleAll_cases aggregator chain atTime doInterpolation :
  is_Some (sampleAll aggregator chain atTime doInterpolation) \/
  exists pre e post trs,
    chain = pre ++ e :: post /\
    sampleAll aggregator pre atTime doInterpolation = Some trs /\
    getElementTransformation aggregator e atTime doInterpolation = None.
Proof.
  induction chain as [| x rest IH]; simpl; [left; by eexists |].
  destruct (getElementTransformation aggregator x atTime doInterpolation)
    as [tr |] eqn:Hx.
  - destruct IH as [[trs Hall] | (pre & e & post & trs & -> & Hpre & He)].
    + left. rewrite Hall. by eexists.
    + right. exists (x :: pre), e, post, (tr :: trs).
      simpl. rewrite Hx, Hpre. done.
  - right. exists [], x, rest, []. done.
Qed.

(** ** Claims about the maker *)

(** C3. With a non-empty chain, [getTransformation] samples the elements in
    chain order.  If every element has a sample, it sampled the whole chain
    and returns [Identity * T1 * ... * Tk] together with the maker's source
    frame, target frame and the query time.  If an element has none, the
    elements before it and that element are all it sampled, and it returns
    [false]. *)
Theorem getTransformation_composes aggregator maker atTime doInterpolation :
  transformationChain maker <> [] ->
  (forall trs,
     sampleAll aggregator (transformationChain maker) atTime doInterpolation
       = Some trs ->
     getTransformation aggregator maker atTime doInterpolation =
     (transformationChain maker,
      Some {| from := sourceFrame maker;
              to := targetFrame maker;
              time := atTime;
              transform := product trs |})) /\
  (forall pre e post trs,
     transformationChain maker = pre ++ e :: post ->
     sampleAll aggregator pre atTime doInterpolation = Some trs ->
     getElementTransformation aggregator e atTime doInterpolation = None ->
     getTransformation aggregator maker atTime doInterpolation =
     (pre ++ [e], None)) /\
  (is_Some (sampleAll aggregator (transformationChain maker) atTime
              doInterpolation) \/
   exists pre e post trs,
     transformationChain maker = pre ++ e :: post /\
     sampleAll aggregator pre atTime doInterpolation = Some trs /\
     getElementTransformation aggregator e atTime doInterpolation = None).
Proof.
  intros Hne. unfold getTransformation.
  destruct (transformationChain maker) as [| e0 rest0] eqn:Hchain; [done |].
  split; [| split].
  - intros trs Hall. by rewrite (composeChain_all _ _ _ _ _ _ trs Hall).
  - intros pre e post trs -> Hpre He.
    by rewrite (composeChain_stops _ _ _ _ _ _ _ _ trs Hpre He).
  - apply sampleAll_cases.
Qed.

(** C4. With an empty chain, [getTransformation] returns [false] at once:
    no element is sampled, whatever the time and the interpolation flag. *)
Theorem getTransformation_empty_chain aggregator maker atTime doInterpolation :
  transformationChain maker = [] ->
  getTransformation aggregator maker atTime doInterpolation = ([], None).
Proof. intros Hchain. unfold getTransformation. by rewrite Hchain. Qed.

End MakerFacts.

(** C1 (amended).  The search never returns an empty chain, also when
    [from] and [to] are the same frame: the root is not a candidate, so a
    successful search from [A] to [A] appends a cycle of at least one and at
    most [maxSeekDepth] edges that never turns straight back; and a maker
    for [(A, A)] whose chain is empty gets [false] from
    [getTransformation], not the identity. *)
Theorem self_chain_is_never_empty {M : MathLibrary} {Agg : StreamAggregator}
    (tree : TransformationTree) (A : string)
    (result : list TransformationElement) :
  getTransformationChain tree A A result <> (true, result) /\
  (forall out,
     getTransformationChain tree A A result = (true, out) ->
     exists chain,
       out = result ++ chain /\
       (1 <= length chain)%nat /\
       Z.of_nat (length chain) <= maxSeekDepth tree /\
       climbs chain A A /\ noTurnBack chain) /\
  (forall aggregator atTime doInterpolation,
     getTransformation aggregator (mkMaker A A []) atTime doInterpolation =
     ([], None)).
Proof.
  assert (forall out,
     getTransformationChain tree A A result = (true, out) ->
     exists chain,
       out = result ++ chain /\
       (1 <= length chain)%nat /\
       Z.of_nat (length chain) <= maxSeekDepth tree /\
       climbs chain A A /\ noTurnBack chain) as Hcycle.
  { intros out Hget.
    apply getTransformationChain_chain in Hget
      as (chain & -> & Hlen & Hmax & Hclimbs & Hturn & _).
    by exists chain. }
  split; [| split; [exact Hcycle | done]].
  intros Hget. destruct (Hcycle _ Hget) as (chain & Heq & Hlen & _).
  apply (f_equal length) in Heq. rewrite length_app in Heq. lia.
Qed.

(** ** The transformer *)

Section TransformerFacts.
Context `{StreamAggregator}.
Implicit Types (t : Transformer) (tr : Transformation).

Lemma updateTransformationChain_cases tree maker :
  (forall chain,
     getTransformationChain tree (sourceFrame maker) (targetFrame maker) []
       = (true, chain) ->
     updateTransformationChain tree maker = setTransformationChain maker chain)
  /\
  (fst (getTransformationChain tree (sourceFrame maker) (targetFrame maker) [])
     = false ->
   updateTransformationChain tree maker = maker).
Proof.
  unfold updateTransformationChain.
  destruct (getTransformationChain tree (sourceFrame maker)
              (targetFrame maker) []) as [[|] chain']; simpl.
  - split; [by intros chain [= ->] | done].
  - split; [done | done].
Qed.

Lemma pushDynamicTransformation_known t tr idx :
  transformToStreamIndex t !! (from tr, to tr) = Some idx ->
  pushDynamicTransformation t tr = Some (pushSample t idx tr).
Proof. intros Hidx. unfold pushDynamicTransformation. by rewrite Hidx. Qed.

Lemma pushDynamicTransformation_unknown t tr idx aggregator1 :
  transformToStreamIndex t !! (from tr, to tr) = None ->
  registerStream (aggregator t) 0 0 10 = (idx, aggregator1) ->
  let tree1 :=
    addTransformation (transformationTree t)
      (DynamicTransformationElement (from tr) (to tr) idx) in
  pushDynamicTransformation t tr =
  Some (pushSample
          {| aggregator := aggregator1;
             transformationTree := tree1;
             transformationMakers :=
               map (updateTransformationChain tree1) (transformationMakers t);
             transformToStreamIndex :=
               <[(from tr, to tr) := idx]> (transformToStreamIndex t) |}
          idx tr).
Proof.
  intros Hnew Hreg. unfold pushDynamicTransformation. rewrite Hnew.
  unfold registerDynamicTransformation, registerTransformationStream.
  rewrite Hreg. simpl. by rewrite lookup_insert_eq.
Qed.

(** The [assert] of [pushDynamicTransformation] never fails. *)
Lemma pushDynamicTransformation_total t tr :
  is_Some (pushDynamicTransformation t tr).
Proof.
  destruct (transformToStreamIndex t !! (from tr, to tr)) as [idx |] eqn:Hidx.
  - rewrite (pushDynamicTransformation_known _ _ _ Hidx). by eexists.
  - destruct (registerStream (aggregator t) 0 0 10) as [idx agg1] eqn:Hreg.
    rewrite (pushDynamicTransformation_unknown _ _ _ _ Hidx Hreg).
    by eexists.
Qed.




Lemma serveAll_total rs t : is_Some (serveAll t rs).
Proof.
  revert t; induction rs as [| r rest IH]; intros t; simpl; [by eexists |].
  destruct r as [tr | tr | a b chain]; simpl; try apply IH.
  destruct (pushDynamicTransformation_total t tr) as [t1 ->]. apply IH.
Qed.

(** When the aggregator never hands out an index twice, no two pairs ever
    share a stream index. *)
Section FreshIndices.
Variable issued : Aggregator -> Z -> Prop.
Hypothesis registerStream_fresh :
  forall a bufferSize period priority idx a',
    registerStream a bufferSize period priority = (idx, a') ->
    ~ issued a idx /\ forall i, issued a' i <-> i = idx \/ issued a i.
Hypothesis push_issued :
  forall idx atTime tr a i, issued (push idx atTime tr a) i <-> issued a i.

Lemma pushSample_tableInjective t idx tr :
  tableInjective issued t -> tableInjective issued (pushSample t idx tr).
Proof.
  intros [Hissued Hinj]. split; simpl; [| done].
  intros key i Hkey. apply push_issued. by eapply Hissued.
Qed.

Lemma serve_tableInjective t r t' :
  tableInjective issued t -> serve t r = Some t' -> tableInjective issued t'.
Proof.
  intros Hok. destruct r as [tr | tr | a b chain]; simpl.
  - destruct (transformToStreamIndex t !! (from tr, to tr)) as [i |] eqn:Hidx.
    + rewrite (pushDynamicTransformation_known _ _ _ Hidx).
      intros [= <-]. by apply pushSample_tableInjective.
    + destruct (registerStream (aggregator t) 0 0 10) as [i agg1] eqn:Hreg.
      rewrite (pushDynamicTransformation_unknown _ _ _ _ Hidx Hreg).
      intros [= <-]. apply pushSample_tableInjective.
      destruct Hok as [Hissued Hinj].
      destruct (registerStream_fresh _ _ _ _ _ _ Hreg) as [Hfresh Hafter].
      split; simpl.
      * intros key idx. rewrite lookup_insert. case_decide.
        -- intros [= <-]. apply Hafter. by left.
        -- intros Hkey. apply Hafter. right. by eapply Hissued.
      * intros key1 key2 idx. rewrite !lookup_insert.
        repeat case_decide; try congruence.
        -- intros [= <-] Hkey. destruct Hfresh. by eapply Hissued.
        -- intros Hkey [= <-]. destruct Hfresh. by eapply Hissued.
        -- apply Hinj.
  - by intros [= <-].
  - by intros [= <-].
Qed.

Lemma serveAll_tableInjective rs t t' :
  tableInjective issued t -> serveAll t rs = Some t' ->
  tableInjective issued t'.
Proof.
  revert t; induction rs as [| r rest IH]; intros t Hok; simpl.
  - by intros [= <-].
  - destruct (serve t r) as [t1 |] eqn:Hserve; [| done].
    apply IH. by eapply serve_tableInjective.
Qed.

End FreshIndices.

(** ** Claims about the transformer *)


(** C9. [pushStaticTransformation] appends one static element and its
    inverse to the tree and touches nothing else: the makers (and with them
    their chains), the stream-index table and the aggregator stay as they
    are. *)
Theorem pushStaticTransformation_adds_edge_only t tr :
  availableElements (transformationTree (pushStaticTransformation t tr)) =
    availableElements (transformationTree t) ++
    [StaticTransformationElement (from tr) (to tr) (transform tr);
     InverseTransformationElement
       (StaticTransformationElement (from tr) (to tr) (transform tr))] /\
  maxSeekDepth (transformationTree (pushStaticTransformation t tr)) =
    maxSeekDepth (transformationTree t) /\
  transformationMakers (pushStaticTransformation t tr) =
    transformationMakers t /\
  transformToStreamIndex (pushStaticTransformation t tr) =
    transformToStreamIndex t /\
  aggregator (pushStaticTransformation t tr) = aggregator t.
Proof.
  split; [apply addTransformation_elements |]. by repeat split.
Qed.

(** C10. In the pass over the makers that follows a new dynamic element, a
    maker's chain is replaced by the chain found when the search for its
    pair succeeds in the new tree; when the search fails the maker is left
    exactly as it was, with whatever chain it had. *)
Theorem failed_resolution_keeps_chain t tr t' (k : nat) maker :
  transformToStreamIndex t !! (from tr, to tr) = None ->
  pushDynamicTransformation t tr = Some t' ->
  transformationMakers t !! k = Some maker ->
  (forall chain,
     getTransformationChain (transformationTree t') (sourceFrame maker)
       (targetFrame maker) [] = (true, chain) ->
     transformationMakers t' !! k = Some (setTransformationChain maker chain))
  /\
  (fst (getTransformationChain (transformationTree t') (sourceFrame maker)
          (targetFrame maker) []) = false ->
   transformationMakers t' !! k = Some maker) /\
  length (transformationMakers t') = length (transformationMakers t).
Proof.
  intros Hnew Hpush Hk.
  destruct (registerStream (aggregator t) 0 0 10) as [idx agg1] eqn:Hreg.
  rewrite (pushDynamicTransformation_unknown _ _ _ _ Hnew Hreg) in Hpush.
  injection Hpush as <-. simpl.
  change (map ?f ?l) with (f <$> l).
  rewrite list_lookup_fmap, Hk, length_fmap. simpl.
  destruct (updateTransformationChain_cases
              (addTransformation (transformationTree t)
                 (DynamicTransformationElement (from tr) (to tr) idx)) maker)
    as [Hfound Hfailed].
  split; [| split; [| done]].
  - intros chain Hget. by rewrite (Hfound chain Hget).
  - intros Hfst. by rewrite (Hfailed Hfst).
Qed.

End TransformerFacts.

(** ** Further facts about the search *)

Section SearchReach.
Context `{MathLibrary}.
Implicit Types (tree : TransformationTree) (node : TransformationNode).
Implicit Types (chain result : list TransformationElement).

Lemma searchNode_levelNodes tree from d node :
  searchNode tree from d node -> In node (levelNodes tree from d).
Proof.
  induction 1 as [| d p e Hp IH Hin Hsrc Hrev]; simpl; [by left |].
  apply in_flat_map. exists p. split; [done |].
  rewrite expand_filter. apply in_map_iff. exists e. split; [done |].
  apply filter_In. split; [done |].
  unfold keptBy. rewrite Hrev. simpl. rewrite andb_true_r.
  by apply bool_decide_eq_true.
Qed.

(** Every list of tree elements that climbs from [to] to [from] without
    turning straight back is the path of a node the search builds. *)
Lemma chain_searchNode tree from to chain :
  climbs chain from to -> noTurnBack chain ->
  (forall e, In e chain -> In e (availableElements tree)) ->
  exists node,
    searchNode tree from (length chain) node /\
    edgesToRoot node = chain /\ frameName node = to.
Proof.
  revert to; induction chain as [| e rest IH]; intros to Hclimbs Hturn Hin.
  - simpl in Hclimbs. subst to. exists (RootNode from).
    split; [constructor | done].
  - destruct Hclimbs as [Htarget Hrest].
    destruct (IH (getSourceFrame e)) as (p & Hp & Hedges & Hname).
    + done.
    + destruct rest as [| e2 rest']; [done |]. by destruct Hturn.
    + intros x Hx. apply Hin. by right.
    + exists (ChildNode (getTargetFrame e) p e). simpl.
      split; [| by rewrite Hedges, Htarget].
      constructor; try done.
      * apply Hin. by left.
      * destruct p as [name | name pp pe]; [done |].
        unfold reversesPreviousStep; simpl. apply bool_decide_eq_false.
        simpl in Hedges. subst rest. destruct Hturn as [Hne _].
        apply searchNode_parent_source in Hp. rewrite <- Hp. congruence.
Qed.

Lemma getTransformationChain_none tree from to result :
  notFoundFrom tree from to 0 ->
  getTransformationChain tree from to result = (false, result).
Proof.
  intros Hnot.
  destruct (getTransformationChain_levels tree from to result)
    as [(k & node & Hfound & _) | [_ Heq]]; [| done].
  by apply foundAt_not_notFoundFrom in Hfound.
Qed.

(** A chain the search could return makes the search succeed, with a chain
    that is not longer. *)
Lemma getTransformationChain_reaches tree from to result chain' :
  guardedChain tree from to chain' ->
  exists chain,
    getTransformationChain tree from to result = (true, result ++ chain) /\
    (1 <= length chain <= length chain')%nat.
Proof.
  intros (Hne & Hclimbs & Hturn & Hin & Hmax).
  destruct (chain_searchNode tree from to chain' Hclimbs Hturn Hin)
    as (node' & Hnode' & Hedges' & Hname').
  destruct chain' as [| e' rest']; [done |]. simpl in Hnode', Hmax.
  apply searchNode_levelNodes in Hnode'.
  destruct (getTransformationChain_levels tree from to result)
    as [(k & node & Hfound & Heq) | [Hnot _]].
  - exists (edgesToRoot node). split; [done |].
    destruct Hfound as (_ & Hlt & Hin' & Hname & Hfirst).
    rewrite (searchNode_length tree from (S k) node)
      by by apply levelNodes_searchNode.
    simpl. split; [lia |].
    destruct (decide (k <= length rest')%nat) as [Hle | Hgt]; [lia |].
    exfalso. apply (Hfirst (length rest') node'); [lia | done | done].
  - exfalso. apply (Hnot (length rest') node'); [lia | lia | done | done].
Qed.

Lemma getTransformationChain_guarded tree from to result chain :
  getTransformationChain tree from to result = (true, result ++ chain) ->
  guardedChain tree from to chain.
Proof.
  intros Hget.
  apply getTransformationChain_chain in Hget
    as (chain0 & Heq & Hlen & Hmax & Hclimbs & Hturn & Hin).
  apply app_inv_head in Heq. subst chain0.
  split; [| by repeat split].
  destruct chain; [simpl in Hlen; lia | done].
Qed.

Lemma climbs_last_In chain a b :
  chain <> [] -> climbs chain a b ->
  exists e, In e chain /\ getSourceFrame e = a.
Proof.
  revert b; induction chain as [| e rest IH]; intros b Hne; [done |].
  intros [Ht Hrest]. destruct rest as [| e' rest'].
  - simpl in Hrest. exists e. split; [by left | done].
  - destruct (IH (getSourceFrame e)) as (x & Hx & Hsrc); [done | done |].
    exists x. split; [by right | done].
Qed.

Lemma checkForMatchingChildFrame_first tree from to pre e post :
  getSourceFrame e = from -> getTargetFrame e = to ->
  (forall x, In x pre ->
     ~ (getSourceFrame x = from /\ getTargetFrame x = to)) ->
  checkForMatchingChildFrame to
    (map (fun it => ChildNode (getTargetFrame it) (RootNode from) it)
       (List.filter (keptBy from (RootNode from)) (pre ++ e :: post))) =
  Some (ChildNode to (RootNode from) e).
Proof.
  intros Hsrc Htgt. induction pre as [| x rest IH]; intros Hpre; simpl.
  - unfold keptBy at 1. simpl. rewrite andb_true_r.
    rewrite bool_decide_eq_true_2 by done. simpl.
    rewrite bool_decide_eq_true_2 by done. by rewrite Htgt.
  - unfold keptBy at 1. simpl. rewrite andb_true_r.
    destruct (bool_decide (getSourceFrame x = from)) eqn:Hx; simpl.
    + apply bool_decide_eq_true in Hx.
      rewrite bool_decide_eq_false_2.
      * apply IH. intros y Hy. apply Hpre. by right.
      * intros Hxt. apply (Hpre x); [by left | done].
    + apply IH. intros y Hy. apply Hpre. by right.
Qed.

Lemma seekLoop_result tree to result fuel i (curLevel : list TransformationNode) :
  seekLoop fuel tree to result i curLevel =
  match seekLoop fuel tree to [] i curLevel with
  | Some (found, chain) => Some (found, result ++ chain)
  | None => None
  end.
Proof.
  revert i curLevel; induction fuel as [| fuel IH]; intros i curLevel;
    [done |].
  simpl.
  destruct ((i <? maxSeekDepth tree) && negb (bool_decide (curLevel = [])));
    [| by rewrite app_nil_r].
  rewrite !seekLevel_flat_map.
  destruct (checkForMatchingChildFrame to (flat_map (expand tree) curLevel)).
  - by rewrite !collectChain_edgesToRoot.
  - apply IH.
Qed.

Lemma carries_climbs_rev chain a b :
  carries chain a b -> climbs (rev chain) a b.
Proof.
  revert a; induction chain as [| e rest IH]; intros a; simpl; [done |].
  intros [Hs Hrest]. eapply climbs_app; [by apply IH |].
  simpl. by split.
Qed.

Lemma noTurnBack_snoc chain e :
  noTurnBack chain ->
  (forall x, last chain = Some x -> getTargetFrame x <> getSourceFrame e) ->
  noTurnBack (chain ++ [e]).
Proof.
  induction chain as [| e1 [| e2 rest] IH]; simpl; intros Hturn Hlast.
  - done.
  - split; [by apply Hlast | done].
  - destruct Hturn as [Hne Hrest]. split; [done |].
    apply IH; [done |]. intros x Hx. apply Hlast. exact Hx.
Qed.

Lemma noTurnBackRev_rev chain :
  noTurnBackRev chain -> noTurnBack (rev chain).
Proof.
  induction chain as [| e1 [| e2 rest] IH]; simpl; intros Hturn; [done.. |].
  destruct Hturn as [Hne Hrest].
  apply noTurnBack_snoc; [by apply IH |].
  intros x. rewrite last_snoc. by intros [= <-].
Qed.

Lemma swapped_chain (elements chain : list TransformationElement) :
  (forall x, In x elements -> exists y, In y elements /\ swapped x y) ->
  (forall e, In e chain -> In e elements) ->
  exists chain',
    Forall2 swapped chain chain' /\ forall e, In e chain' -> In e elements.
Proof.
  intros Hsym. induction chain as [| e rest IH]; intros Hin.
  - exists []. split; [constructor | by intros e []].
  - destruct (Hsym e) as (y & Hy & Hswap); [apply Hin; by left |].
    destruct IH as (rest' & Hall & Hin'); [intros x Hx; apply Hin; by right |].
    exists (y :: rest'). split; [by constructor |].
    intros x [<- | Hx]; auto.
Qed.

Lemma swapped_climbs_carries chain chain' a b :
  Forall2 swapped chain chain' -> climbs chain a b -> carries chain' b a.
Proof.
  intros Hall. revert b. induction Hall as [| x y rest rest' [Hs Ht] Hall IH];
    intros b; simpl; [done |].
  intros [Htarget Hrest]. split; [congruence |].
  rewrite Ht. by apply IH.
Qed.

Lemma swapped_noTurnBack chain chain' :
  Forall2 swapped chain chain' -> noTurnBack chain -> noTurnBackRev chain'.
Proof.
  induction 1 as [| x y rest rest' [Hs Ht] Hall IH]; simpl; [done |].
  destruct Hall as [| x2 y2 rest2 rest2' [Hs2 Ht2] Hall]; [done |].
  intros [Hne Hrest]. split; [| by apply IH].
  rewrite Ht2, Hs. congruence.
Qed.

Lemma withInverses_swapped (es : list TransformationElement) x :
  In x (withInverses es) -> exists y, In y (withInverses es) /\ swapped x y.
Proof.
  unfold withInverses. intros Hx.
  apply in_flat_map in Hx as (e & He & [<- | [<- | []]]).
  - exists (InverseTransformationElement e). split; [| done].
    apply in_flat_map. exists e. split; [done |]. right. by left.
  - exists e. split; [| done].
    apply in_flat_map. exists e. split; [done |]. by left.
Qed.

(** In a tree made of elements and their inverses, a chain the search could
    return for [(from, to)] gives one of the same length for
    [(to, from)]. *)
Lemma guardedChain_reverse tree es from to chain :
  availableElements tree = withInverses es ->
  guardedChain tree from to chain ->
  exists chain', guardedChain tree to from chain' /\
                 length chain' = length chain.
Proof.
  intros Hpairs (Hne & Hclimbs & Hturn & Hin & Hmax).
  destruct (swapped_chain (availableElements tree) chain)
    as (chain' & Hall & Hin'); [| done |].
  { rewrite Hpairs. apply withInverses_swapped. }
  pose proof (Forall2_length _ _ _ Hall) as Hlen.
  exists (rev chain'). rewrite length_rev. split; [| done].
  split; [| split; [| split; [| split]]].
  - intros Hnil. apply (f_equal length) in Hnil.
    rewrite length_rev in Hnil. destruct chain; [done |].
    simpl in Hlen, Hnil. lia.
  - apply carries_climbs_rev. by eapply swapped_climbs_carries.
  - apply noTurnBackRev_rev. by eapply swapped_noTurnBack.
  - intros e He. apply Hin'. by apply in_rev.
  - rewrite length_rev. lia.
Qed.

(** ** Further statements about the search *)

(** X1. The search is complete and finds a shortest chain: whenever some
    chain of tree elements leads from [from] to [to] without turning
    straight back and has between one and [maxSeekDepth] edges, the search
    succeeds, and the chain it appends is such a chain and is not longer
    than the given one. *)
Theorem getTransformationChain_shortest tree from to result chain' :
  guardedChain tree from to chain' ->
  exists chain,
    getTransformationChain tree from to result = (true, result ++ chain) /\
    guardedChain tree from to chain /\
    (length chain <= length chain')%nat.
Proof.
  intros Hguarded.
  destruct (getTransformationChain_reaches tree from to result chain' Hguarded)
    as (chain & Hget & Hlen).
  exists chain. split; [done |]. split; [| lia].
  by eapply getTransformationChain_guarded.
Qed.

(** X2. When the tree holds an element from [from] to [to] and
    [maxSeekDepth] is at least 1, the search returns a single edge: the
    first element in the order of the tree that has this source and this
    target. *)
Theorem getTransformationChain_direct_edge tree from to result pre e post :
  1 <= maxSeekDepth tree ->
  availableElements tree = pre ++ e :: post ->
  getSourceFrame e = from -> getTargetFrame e = to ->
  (forall x, In x pre ->
     ~ (getSourceFrame x = from /\ getTargetFrame x = to)) ->
  getTransformationChain tree from to result = (true, result ++ [e]).
Proof.
  intros Hmax Helements Hsrc Htgt Hpre.
  unfold getTransformationChain. simpl.
  destruct (0 <? maxSeekDepth tree) eqn:Hlt; [| apply Z.ltb_ge in Hlt; lia].
  simpl.
  change (addMatchingTransforms tree from (RootNode from))
    with (expand tree (RootNode from)).
  rewrite expand_filter, Helements. simpl frameName.
  by rewrite (checkForMatchingChildFrame_first tree from to pre e post).
Qed.

(** X3. The search appends to [result] and never clears it: whatever the
    vector holds at the call, the return value is the one for an empty
    vector, and the vector afterwards is its old content followed by what
    the search puts into an empty vector. *)
Theorem getTransformationChain_appends tree from to result :
  getTransformationChain tree from to result =
  (fst (getTransformationChain tree from to []),
   result ++ snd (getTransformationChain tree from to [])).
Proof.
  unfold getTransformationChain. rewrite seekLoop_result.
  destruct (seekLoop (S (Z.to_nat (maxSeekDepth tree))) tree to [] 0
              [RootNode from]) as [[found chain] |]; simpl; [done |].
  by rewrite app_nil_r.
Qed.

(** X4. The search returns [false] and leaves [result] alone when
    [maxSeekDepth] is not positive, when no element of the tree starts from
    [from] (an empty tree in particular), and when no element of the tree
    leads into [to]; this also holds when [from] and [to] are the same
    frame. *)
Theorem getTransformationChain_fails tree from to result :
  maxSeekDepth tree <= 0 \/
  (forall e, In e (availableElements tree) -> getSourceFrame e <> from) \/
  (forall e, In e (availableElements tree) -> getTargetFrame e <> to) ->
  getTransformationChain tree from to result = (false, result).
Proof.
  intros Hcases. apply getTransformationChain_none.
  intros k n _ Hlt Hn. apply levelNodes_searchNode in Hn.
  destruct Hcases as [Hmax | [Hsource | Htarget]].
  - lia.
  - pose proof (searchNode_length _ _ _ _ Hn) as Hlen.
    destruct (climbs_last_In (edgesToRoot n) from (frameName n))
      as (e & He & Hsrc).
    + intros Hnil. by rewrite Hnil in Hlen.
    + by eapply searchNode_climbs.
    + exfalso. apply (Hsource e); [| done].
      by eapply searchNode_available.
  - inversion Hn as [| d p e Hp Hin Hsrc Hrev]; subst. simpl.
    by apply Htarget.
Qed.

(** X5. Adding elements never loses a chain: if the search succeeds in a
    tree, it succeeds in every tree that holds at least the same elements
    and allows at least the same depth, with a chain that is not longer. *)
Theorem getTransformationChain_grows tree tree' from to result chain :
  (forall e, In e (availableElements tree) -> In e (availableElements tree')) ->
  maxSeekDepth tree <= maxSeekDepth tree' ->
  getTransformationChain tree from to result = (true, result ++ chain) ->
  exists chain',
    getTransformationChain tree' from to result = (true, result ++ chain') /\
    (length chain' <= length chain)%nat.
Proof.
  intros Hsub Hmax Hget.
  apply getTransformationChain_guarded in Hget
    as (Hne & Hclimbs & Hturn & Hin & Hlen).
  destruct (getTransformationChain_reaches tree' from to result chain)
    as (chain' & Hget' & Hlen').
  - repeat split; try done; [auto | lia].
  - exists chain'. split; [done | lia].
Qed.

(** X6. In a tree that holds every element together with its inverse (as
    [addTransformation] builds it), the search is symmetric: if it finds a
    chain from [from] to [to], it finds a chain of the same length from
    [to] to [from]. *)
Theorem getTransformationChain_symmetric tree es from to result chain :
  availableElements tree = withInverses es ->
  getTransformationChain tree from to result = (true, result ++ chain) ->
  exists chain',
    getTransformationChain tree to from result = (true, result ++ chain') /\
    length chain' = length chain.
Proof.
  intros Hpairs Hget.
  pose proof (getTransformationChain_guarded _ _ _ _ _ Hget) as Hguarded.
  destruct (guardedChain_reverse _ _ _ _ _ Hpairs Hguarded)
    as (back & Hback & Hlen).
  destruct (getTransformationChain_reaches tree to from result back Hback)
    as (chain' & Hget' & Hlen').
  exists chain'. split; [done |].
  pose proof (getTransformationChain_guarded _ _ _ _ _ Hget') as Hguarded'.
  destruct (guardedChain_reverse _ _ _ _ _ Hpairs Hguarded')
    as (forth & Hforth & Hlen2).
  destruct (getTransformationChain_reaches tree from to result forth Hforth)
    as (chain2 & Hget2 & Hlen3).
  rewrite Hget in Hget2. injection Hget2 as Heq.
  apply app_inv_head in Heq. subst chain2. lia.
Qed.

End SearchReach.

(** ** Further facts about runs of requests *)

Section RunFacts.
Context {M : MathLibrary} {Agg : StreamAggregator}.
Implicit Types (t : Transformer) (tr : Transformation) (rs : list Request).

Lemma updateTransformationChain_frames tree maker :
  sourceFrame (updateTransformationChain tree maker) = sourceFrame maker /\
  targetFrame (updateTransformationChain tree maker) = targetFrame maker.
Proof.
  unfold updateTransformationChain.
  by destruct (getTransformationChain tree (sourceFrame maker)
                 (targetFrame maker) []) as [[|] chain].
Qed.

(** What one request does to the tree: nothing, or one element and its
    inverse appended. *)
Lemma serve_tree t r t' :
  serve t r = Some t' ->
  maxSeekDepth (transformationTree t') = maxSeekDepth (transformationTree t) /\
  (availableElements (transformationTree t') =
     availableElements (transformationTree t) \/
   exists e,
     (forall n, e <> InverseTransformationElement n) /\
     availableElements (transformationTree t') =
       availableElements (transformationTree t) ++
       [e; InverseTransformationElement e]).
Proof.
  destruct r as [tr | tr | a b chain]; simpl.
  - destruct (transformToStreamIndex t !! (from tr, to tr)) as [i |] eqn:Hidx.
    + rewrite (pushDynamicTransformation_known _ _ _ Hidx).
      intros [= <-]. simpl. by split; [| left].
    + destruct (registerStream (aggregator t) 0 0 10) as [i agg1] eqn:Hreg.
      rewrite (pushDynamicTransformation_unknown _ _ _ _ Hidx Hreg).
      intros [= <-]. simpl. split; [done |]. right.
      exists (DynamicTransformationElement (from tr) (to tr) i).
      split; [done |]. by rewrite <- app_assoc.
  - intros [= <-]. simpl. split; [done |]. right.
    exists (StaticTransformationElement (from tr) (to tr) (transform tr)).
    split; [done |]. by rewrite <- app_assoc.
  - intros [= <-]. simpl. by split; [| left].
Qed.

Lemma serve_elements_incl t r t' e :
  serve t r = Some t' ->
  In e (availableElements (transformationTree t)) ->
  In e (availableElements (transformationTree t')).
Proof.
  intros Hserve He.
  destruct (serve_tree _ _ _ Hserve) as [_ [-> | (x & _ & ->)]]; [done |].
  apply in_app_iff. by left.
Qed.

Lemma makerResolved_grows tree tree' maker :
  (forall e, In e (availableElements tree) -> In e (availableElements tree')) ->
  maxSeekDepth tree' = maxSeekDepth tree ->
  makerResolved tree maker -> makerResolved tree' maker.
Proof.
  intros Hsub Hmax [Hempty | (Hne & Hclimbs & Hturn & Hin & Hlen)];
    [by left | right].
  repeat split; try done; [auto | lia].
Qed.

Lemma updateTransformationChain_resolved tree maker :
  makerResolved tree maker ->
  makerResolved tree (updateTransformationChain tree maker).
Proof.
  intros Hresolved. unfold updateTransformationChain.
  destruct (getTransformationChain tree (sourceFrame maker)
              (targetFrame maker) []) as [[|] chain] eqn:Hget; [| done].
  right. simpl.
  by apply (getTransformationChain_guarded tree _ _ [] chain).
Qed.

Lemma serve_resolved t r t' :
  isPush r ->
  Forall (makerResolved (transformationTree t)) (transformationMakers t) ->
  serve t r = Some t' ->
  Forall (makerResolved (transformationTree t')) (transformationMakers t').
Proof.
  intros Hpush Hresolved. destruct r as [tr | tr | a b chain]; simpl;
    [| | done].
  - destruct (transformToStreamIndex t !! (from tr, to tr)) as [i |] eqn:Hidx.
    + rewrite (pushDynamicTransformation_known _ _ _ Hidx).
      by intros [= <-].
    + destruct (registerStream (aggregator t) 0 0 10) as [i agg1] eqn:Hreg.
      rewrite (pushDynamicTransformation_unknown _ _ _ _ Hidx Hreg).
      intros [= <-]. simpl. apply List.Forall_forall. intros maker' Hin.
      apply in_map_iff in Hin as (maker & <- & Hin).
      apply updateTransformationChain_resolved.
      eapply makerResolved_grows;
        [| | by eapply (proj1 (List.Forall_forall _ _) Hresolved)].
      * intros e He. rewrite addTransformation_elements.
        apply in_app_iff. by left.
      * done.
  - intros [= <-]. simpl. eapply Forall_impl; [exact Hresolved |].
    intros maker. apply makerResolved_grows; [| done].
    intros e He. rewrite addTransformation_elements.
    apply in_app_iff. by left.
Qed.

Lemma serve_tableInTree t r t' :
  tableInTree t -> serve t r = Some t' -> tableInTree t'.
Proof.
  intros Hinv Hserve a b idx Hkey.
  destruct r as [tr | tr | x y chain]; simpl in Hserve.
  - destruct (transformToStreamIndex t !! (from tr, to tr)) as [i |] eqn:Hidx.
    + rewrite (pushDynamicTransformation_known _ _ _ Hidx) in Hserve.
      injection Hserve as <-. by apply Hinv.
    + destruct (registerStream (aggregator t) 0 0 10) as [i agg1] eqn:Hreg.
      rewrite (pushDynamicTransformation_unknown _ _ _ _ Hidx Hreg) in Hserve.
      injection Hserve as <-. simpl in *.
      rewrite <- app_assoc. apply in_app_iff.
      rewrite lookup_insert in Hkey. case_decide as Heq.
      * injection Hkey as <-. injection Heq as <- <-. right. by left.
      * left. by apply Hinv.
  - injection Hserve as <-. simpl in *.
    rewrite <- app_assoc. apply in_app_iff. left.
    by apply Hinv.
  - injection Hserve as <-. by apply Hinv.
Qed.

Lemma serve_makerFrames t r t' :
  serve t r = Some t' -> makerFrames t' = makerFrames t.
Proof.
  unfold makerFrames. destruct r as [tr | tr | a b chain]; simpl.
  - destruct (transformToStreamIndex t !! (from tr, to tr)) as [i |] eqn:Hidx.
    + rewrite (pushDynamicTransformation_known _ _ _ Hidx).
      by intros [= <-].
    + destruct (registerStream (aggregator t) 0 0 10) as [i agg1] eqn:Hreg.
      rewrite (pushDynamicTransformation_unknown _ _ _ _ Hidx Hreg).
      intros [= <-]. simpl. rewrite map_map. apply map_ext. intros maker.
      by destruct (updateTransformationChain_frames
                     (addTransformation (transformationTree t)
                        (DynamicTransformationElement (from tr) (to tr) i))
                     maker) as [-> ->].
  - by intros [= <-].
  - intros [= <-]. simpl. rewrite map_map. apply map_ext. intros maker.
    by destruct (bool_decide (sourceFrame maker = a)
                 && bool_decide (targetFrame maker = b)).
Qed.

Lemma serve_table_domain t r t' :
  serve t r = Some t' ->
  dom (transformToStreamIndex t') =
  dom (transformToStreamIndex t) ∪ list_to_set (dynamicPairs [r]).
Proof.
  destruct r as [tr | tr | a b chain]; simpl.
  - rewrite union_empty_r_L.
    destruct (transformToStreamIndex t !! (from tr, to tr)) as [i |] eqn:Hidx.
    + rewrite (pushDynamicTransformation_known _ _ _ Hidx).
      intros [= <-]. simpl.
      rewrite (union_comm_L (dom _)). symmetry. apply subseteq_union_1_L.
      apply singleton_subseteq_l, elem_of_dom. by eexists.
    + destruct (registerStream (aggregator t) 0 0 10) as [i agg1] eqn:Hreg.
      rewrite (pushDynamicTransformation_unknown _ _ _ _ Hidx Hreg).
      intros [= <-]. simpl. rewrite dom_insert_L. apply union_comm_L.
  - intros [= <-]. simpl. by rewrite union_empty_r_L.
  - intros [= <-]. simpl. by rewrite union_empty_r_L.
Qed.

Lemma serve_total t r : is_Some (serve t r).
Proof.
  destruct r as [tr | tr | a b chain]; simpl; [| by eexists..].
  apply pushDynamicTransformation_total.
Qed.

Lemma dynamicPairs_cons r rs :
  dynamicPairs (r :: rs) = dynamicPairs [r] ++ dynamicPairs rs.
Proof. by destruct r. Qed.

(** ** Further statements about runs of requests *)

(** X7. Static pushes and dynamic pushes for pairs that already have a
    stream never touch the makers: after any run of such requests the maker
    list, with every chain in it, and the stream-index table are what they
    were, even if the pushes made new pairs reachable. *)
Theorem quiet_run_keeps_makers t rs :
  Forall (quiet (transformToStreamIndex t)) rs ->
  exists t',
    serveAll t rs = Some t' /\
    transformationMakers t' = transformationMakers t /\
    transformToStreamIndex t' = transformToStreamIndex t.
Proof.
  revert t; induction rs as [| r rest IH]; intros t Hquiet; simpl.
  - by exists t.
  - apply List.Forall_cons_iff in Hquiet as [Hr Hrest].
    destruct r as [tr | tr | a b chain]; simpl in *; [| | done].
    + destruct Hr as [idx Hidx].
      rewrite (pushDynamicTransformation_known _ _ _ Hidx).
      destruct (IH (pushSample t idx tr)) as (t' & Hrun & Hmakers & Htable);
        [done |].
      by exists t'.
    + destruct (IH (pushStaticTransformation t tr))
        as (t' & Hrun & Hmakers & Htable); [done |].
      by exists t'.
Qed.

(** X8. Every run of requests completes, so the [assert] of
    [pushDynamicTransformation] never fails, and the pairs of the
    stream-index table after the run are the pairs it had before together
    with the pairs of the dynamic samples of the run: an entry is never
    removed, and only dynamic samples add one. *)
Theorem serveAll_table_domain t rs :
  exists t',
    serveAll t rs = Some t' /\
    dom (transformToStreamIndex t') =
    dom (transformToStreamIndex t) ∪ list_to_set (dynamicPairs rs).
Proof.
  revert t; induction rs as [| r rest IH]; intros t.
  - exists t. split; [done |]. simpl. by rewrite union_empty_r_L.
  - simpl serveAll. destruct (serve_total t r) as [t1 Hserve].
    rewrite Hserve. destruct (IH t1) as (t' & Hrun & Hdom).
    exists t'. split; [done |].
    rewrite Hdom, (serve_table_domain _ _ _ Hserve).
    rewrite (dynamicPairs_cons r rest), list_to_set_app_L.
    by rewrite union_assoc_L.
Qed.

(** X9. A run of requests only ever appends to the tree, one element and
    its inverse at a time and at most one such pair per request; the
    elements the tree had stay where they were, [maxSeekDepth] does not
    change, and none of the appended elements is itself an inverse
    element. *)
Theorem serveAll_tree_grows t rs :
  exists t' es,
    serveAll t rs = Some t' /\
    availableElements (transformationTree t') =
      availableElements (transformationTree t) ++ withInverses es /\
    maxSeekDepth (transformationTree t') =
      maxSeekDepth (transformationTree t) /\
    (length es <= length rs)%nat /\
    forall e n, In e es -> e <> InverseTransformationElement n.
Proof.
  revert t; induction rs as [| r rest IH]; intros t.
  - exists t, []. simpl. rewrite app_nil_r. repeat split; try done.
  - simpl serveAll. destruct (serve_total t r) as [t1 Hserve].
    rewrite Hserve.
    destruct (IH t1) as (t' & es & Hrun & Helements & Hmax & Hlen & Hes).
    destruct (serve_tree _ _ _ Hserve) as [Hmax1 [Hsame | (e & He & Hpair)]].
    + exists t', es. rewrite Helements, Hsame, Hmax, Hmax1. simpl.
      repeat split; try done. lia.
    + exists t', (e :: es). rewrite Helements, Hpair, Hmax, Hmax1. simpl.
      rewrite <- app_assoc. repeat split; try done; [lia |].
      intros x n [<- | Hx]; [apply He | by apply Hes].
Qed.

(** X10. The stream-index table and the tree stay in step: if every entry
    of the table has its dynamic element (same source, target and stream
    index) in the tree, this still holds after any run of requests. *)
Theorem serveAll_tableInTree t rs t' :
  tableInTree t -> serveAll t rs = Some t' -> tableInTree t'.
Proof.
  revert t; induction rs as [| r rest IH]; intros t Hinv; simpl.
  - by intros [= <-].
  - destruct (serve t r) as [t1 |] eqn:Hserve; [| done].
    apply IH. by eapply serve_tableInTree.
Qed.

(** X11. No request adds, removes, reorders or re-targets a maker: after
    any run the maker list has the same source and target frames in the
    same order. *)
Theorem serveAll_makerFrames t rs :
  exists t', serveAll t rs = Some t' /\ makerFrames t' = makerFrames t.
Proof.
  revert t; induction rs as [| r rest IH]; intros t.
  - by exists t.
  - simpl serveAll. destruct (serve_total t r) as [t1 Hserve].
    rewrite Hserve. destruct (IH t1) as (t' & Hrun & Hframes).
    exists t'. split; [done |].
    by rewrite Hframes, (serve_makerFrames _ _ _ Hserve).
Qed.

(** X12. Pushes keep the makers' chains sound: if every maker's chain is
    empty or is a chain of tree elements that leads from the maker's source
    frame to its target frame (without turning straight back, within
    [maxSeekDepth]), the same holds after any run of static and dynamic
    pushes, with respect to the tree the run leaves. *)
Theorem serveAll_resolved t rs t' :
  Forall (makerResolved (transformationTree t)) (transformationMakers t) ->
  Forall isPush rs ->
  serveAll t rs = Some t' ->
  Forall (makerResolved (transformationTree t')) (transformationMakers t').
Proof.
  revert t; induction rs as [| r rest IH]; intros t Hresolved Hpush; simpl.
  - by intros [= <-].
  - apply List.Forall_cons_iff in Hpush as [Hr Hrest].
    destruct (serve t r) as [t1 |] eqn:Hserve; [| done].
    apply IH; [| done]. by eapply serve_resolved.
Qed.

(** X13. [addTransformationChain] sets the chain of every maker whose
    source and target frames are the given pair, wherever it stands in the
    maker list, and leaves every other maker, the length of the list, the
    tree, the stream-index table and the aggregator as they are.  So it is
    a last-write-wins update per pair: a second chain for the same pair
    replaces the first, and chains for different pairs can be supplied in
    either order. *)
Theorem addTransformationChain_composes t a b chain1 chain2 (k : nat) maker :
  transformationMakers t !! k = Some maker ->
  (sourceFrame maker = a /\ targetFrame maker = b ->
   transformationMakers (addTransformationChain t a b chain1) !! k =
   Some {| sourceFrame := a; targetFrame := b;
           transformationChain := chain1 |}) /\
  (~ (sourceFrame maker = a /\ targetFrame maker = b) ->
   transformationMakers (addTransformationChain t a b chain1) !! k =
   Some maker) /\
  length (transformationMakers (addTransformationChain t a b chain1)) =
    length (transformationMakers t) /\
  transformationTree (addTransformationChain t a b chain1) =
    transformationTree t /\
  transformToStreamIndex (addTransformationChain t a b chain1) =
    transformToStreamIndex t /\
  aggregator (addTransformationChain t a b chain1) = aggregator t /\
  addTransformationChain (addTransformationChain t a b chain1) a b chain2 =
    addTransformationChain t a b chain2 /\
  (forall a' b',
     (a, b) <> (a', b') ->
     addTransformationChain (addTransformationChain t a b chain1) a' b' chain2 =
     addTransformationChain (addTransformationChain t a' b' chain2) a b chain1).
Proof.
  intros Hk.
  assert (transformationMakers (addTransformationChain t a b chain1) !! k =
          Some (if bool_decide (sourceFrame maker = a)
                   && bool_decide (targetFrame maker = b)
                then setTransformationChain maker chain1 else maker))
    as Hlookup.
  { unfold addTransformationChain; simpl.
    change (map ?f ?l) with (f <$> l). by rewrite list_lookup_fmap, Hk. }
  split; [| split; [| split; [| split; [| split; [| split; [| split]]]]]].
  - intros [Ha Hb]. rewrite Hlookup.
    rewrite !bool_decide_eq_true_2 by done. simpl.
    unfold setTransformationChain. by rewrite Ha, Hb.
  - intros Hne. rewrite Hlookup.
    destruct (bool_decide (sourceFrame maker = a)
              && bool_decide (targetFrame maker = b)) eqn:Hmatch; [| done].
    apply andb_true_iff in Hmatch as [Ha Hb].
    apply bool_decide_eq_true in Ha, Hb. by destruct Hne.
  - unfold addTransformationChain; simpl. apply length_map.
  - done.
  - done.
  - done.
  - unfold addTransformationChain; simpl. f_equal.
    rewrite map_map. apply map_ext. intros x.
    by destruct (bool_decide (sourceFrame x = a)
                 && bool_decide (targetFrame x = b)) eqn:Hmatch;
      simpl; rewrite Hmatch.
  - intros a' b' Hne. unfold addTransformationChain; simpl. f_equal.
    rewrite !map_map. apply map_ext. intros x.
    destruct (bool_decide (sourceFrame x = a)
              && bool_decide (targetFrame x = b)) eqn:Hmatch;
      destruct (bool_decide (sourceFrame x = a')
                && bool_decide (targetFrame x = b')) eqn:Hmatch';
      simpl; rewrite ?Hmatch, ?Hmatch'; try done.
    apply andb_true_iff in Hmatch as [Ha Hb].
    apply andb_true_iff in Hmatch' as [Ha' Hb'].
    apply bool_decide_eq_true in Ha, Hb, Ha', Hb'. congruence.
Qed.

(** X14. When the aggregator never hands out a stream index twice (each
    [registerStream] returns an index not handed out before, and [push]
    hands out none), no two pairs of the stream-index table ever share a
    stream index, whatever requests are served. *)
Theorem stream_indices_stay_distinct (issued : Aggregator -> Z -> Prop)
    t rs t' :
  (forall a bufferSize period priority idx a',
     registerStream a bufferSize period priority = (idx, a') ->
     ~ issued a idx /\ forall i, issued a' i <-> i = idx \/ issued a i) ->
  (forall idx atTime tr a i, issued (push idx atTime tr a) i <-> issued a i) ->
  tableInjective issued t ->
  serveAll t rs = Some t' ->
  forall key1 key2 idx,
    transformToStreamIndex t' !! key1 = Some idx ->
    transformToStreamIndex t' !! key2 = Some idx -> key1 = key2.
Proof.
  intros Hfresh Hpush Hok Hrun.
  by destruct (serveAll_tableInjective issued Hfresh Hpush rs t t' Hok Hrun).
Qed.

End RunFacts.

(** ** Further facts about the maker *)

Section MakerCompose.
Context {M : MathLibrary} {Agg : StreamAggregator}.
Implicit Types (chain : list TransformationElement).

Lemma sampleAll_app aggregator chain1 chain2 atTime doInterpolation trs1 trs2 :
  sampleAll aggregator chain1 atTime doInterpolation = Some trs1 ->
  sampleAll aggregator chain2 atTime doInterpolation = Some trs2 ->
  sampleAll aggregator (chain1 ++ chain2) atTime doInterpolation =
  Some (trs1 ++ trs2).
Proof.
  revert trs1; induction chain1 as [| e rest IH]; intros trs1; simpl.
  - by intros [= <-].
  - destruct (getElementTransformation aggregator e atTime doInterpolation)
      as [tr |]; [| done].
    destruct (sampleAll aggregator rest atTime doInterpolation) as [trs |];
      [| done].
    intros [= <-] H2. by rewrite (IH trs eq_refl H2).
Qed.

(** A successful [getTransformation] sampled every element of a non-empty
    chain and returns the product of the samples. *)
Lemma getTransformation_Some aggregator maker atTime doInterpolation result :
  snd (getTransformation aggregator maker atTime doInterpolation)
    = Some result ->
  transformationChain maker <> [] /\
  exists trs,
    sampleAll aggregator (transformationChain maker) atTime doInterpolation
      = Some trs /\
    result = {| from := sourceFrame maker;
                to := targetFrame maker;
                time := atTime;
                transform := product trs |}.
Proof.
  intros Hget.
  destruct (transformationChain maker) as [| e0 rest0] eqn:Hchain.
  { unfold getTransformation in Hget. by rewrite Hchain in Hget. }
  split; [done |]. rewrite <- Hchain in *.
  destruct (sampleAll_cases aggregator (transformationChain maker) atTime
              doInterpolation)
    as [[trs Hall] | (pre & e & post & trs & Hsplit & Hpre & He)].
  - exists trs. split; [done |].
    unfold getTransformation in Hget. rewrite Hchain in Hget.
    rewrite <- Hchain in Hget.
    rewrite (composeChain_all _ _ _ _ _ _ trs Hall) in Hget.
    simpl in Hget. by injection Hget as <-.
  - unfold getTransformation in Hget. rewrite Hchain in Hget.
    rewrite <- Hchain, Hsplit in Hget.
    by rewrite (composeChain_stops _ _ _ _ _ _ _ _ trs Hpre He) in Hget.
Qed.

Lemma getTransformation_None aggregator maker atTime doInterpolation :
  transformationChain maker <> [] ->
  snd (getTransformation aggregator maker atTime doInterpolation) = None ->
  exists pre e post trs,
    transformationChain maker = pre ++ e :: post /\
    sampleAll aggregator pre atTime doInterpolation = Some trs /\
    getElementTransformation aggregator e atTime doInterpolation = None.
Proof.
  intros Hne Hget.
  destruct (sampleAll_cases aggregator (transformationChain maker) atTime
              doInterpolation) as [[trs Hall] | Hsplit]; [| done].
  unfold getTransformation in Hget.
  destruct (transformationChain maker) as [| e0 rest0] eqn:Hchain; [done |].
  by rewrite (composeChain_all _ _ _ _ _ _ trs Hall) in Hget.
Qed.

(** X15. A chain continues where its front part ends, whatever the
    arithmetic of the math library.  Let the chain of [maker] be the chain
    of [maker1] followed by [chain2].  If [maker1] gets a transformation
    and every element of [chain2] has a sample, [maker] samples its whole
    chain and gets the transform of [maker1] multiplied on the right by
    the samples of [chain2], one after the other, under its own frames and
    the query time.  If [maker1] has a chain but gets none, [maker] gets
    none either, having sampled exactly the same elements. *)
Theorem getTransformation_concat aggregator maker1 maker chain2 atTime
    doInterpolation :
  transformationChain maker = transformationChain maker1 ++ chain2 ->
  (forall result1 trs2,
     snd (getTransformation aggregator maker1 atTime doInterpolation)
       = Some result1 ->
     sampleAll aggregator chain2 atTime doInterpolation = Some trs2 ->
     getTransformation aggregator maker atTime doInterpolation =
     (transformationChain maker,
      Some {| from := sourceFrame maker;
              to := targetFrame maker;
              time := atTime;
              transform := fold_left times trs2 (transform result1) |})) /\
  (transformationChain maker1 <> [] ->
   snd (getTransformation aggregator maker1 atTime doInterpolation) = None ->
   getTransformation aggregator maker atTime doInterpolation =
   (fst (getTransformation aggregator maker1 atTime doInterpolation), None)).
Proof.
  intros Hchain. split.
  - intros result1 trs2 Hget1 Hall2.
    apply getTransformation_Some in Hget1 as (Hne1 & trs1 & Hall1 & ->).
    pose proof (sampleAll_app _ _ _ _ _ _ _ Hall1 Hall2) as Hall.
    rewrite <- Hchain in Hall. unfold getTransformation.
    destruct (transformationChain maker) as [| e0 rest0] eqn:Hmaker.
    { destruct (transformationChain maker1); [done | discriminate Hchain]. }
    rewrite (composeChain_all _ _ _ _ _ _ _ Hall). simpl. do 3 f_equal.
    by rewrite fold_left_app.
  - intros Hne1 Hget1.
    destruct (getTransformation_None _ _ _ _ Hne1 Hget1)
      as (pre & e & post & trs & Hsplit & Hpre & He).
    assert (getTransformation aggregator maker1 atTime doInterpolation =
            (pre ++ [e], None)) as ->.
    { unfold getTransformation. rewrite Hsplit.
      destruct (pre ++ e :: post) eqn:Hshape;
        [by destruct pre | rewrite <- Hshape].
      by rewrite (composeChain_stops _ _ _ _ _ _ _ _ trs Hpre He). }
    simpl. unfold getTransformation. rewrite Hchain, Hsplit, <- app_assoc.
    simpl. destruct (pre ++ e :: post ++ chain2) eqn:Hshape;
      [by destruct pre | rewrite <- Hshape].
    by rewrite (composeChain_stops _ _ _ _ _ _ _ _ trs Hpre He).
Qed.

End MakerCompose.

(** ** The statements on the scenarios *)

Import Scenario.

(** S1: the chain from A to C is returned leaf side first, and is the
    root-to-leaf chain once reversed. *)
Lemma getTransformationChain_leaf_to_root_witness :
  getTransformationChain treeABC "A" "C" [] = (true, chainAC) /\
  exists chain,
    chainAC = [] ++ chain /\ chain <> [] /\
    climbs chain "A" "C" /\
    (exists e, head chain = Some e /\ getTargetFrame e = "C") /\
    (exists e, last chain = Some e /\ getSourceFrame e = "A") /\
    carries (rev chain) "A" "C" /\
    forall e, In e chain -> In e (availableElements treeABC).
Proof.
  split; [vm_compute; reflexivity |].
  apply (getTransformationChain_leaf_to_root treeABC "A" "C" [] chainAC).
  vm_compute; reflexivity.
Defined.

(** C2, as stated, fails on S1: the returned vector starts with the edge
    B->C, which does not leave A, and ends with A->B, which does not enter
    C. *)
Lemma root_to_leaf_order_counterexample :
  exists chain,
    getTransformationChain treeABC "A" "C" [] = (true, chain) /\
    ~ firstLeavesLastEnters chain "A" "C" /\
    ~ carries chain "A" "C".
Proof.
  exists chainAC. split; [vm_compute; reflexivity |]. split.
  - intros [(e & He & Hsrc) _]. simpl in He. injection He as <-.
    discriminate Hsrc.
  - intros [Hsrc _]. discriminate Hsrc.
Qed.

(** C1, as stated, fails: in S4's tree the search from A to A returns
    [false]; in a triangle it returns the three-edge cycle; a maker for
    (A, A) with an empty chain gets [false], and with the cycle as its
    chain it gets the product of the cycle, which is not the identity. *)
Lemma self_chain_counterexample :
  getTransformationChain treeAB "A" "A" [] = (false, []) /\
  getTransformationChain treeCycle "A" "A" [] =
    (true, [static "C" "A" 0 0 1; static "B" "C" 0 1 0; static "A" "B" 1 0 0]) /\
  snd (getTransformation noStreams (mkMaker "A" "A" []) 0 false) = None /\
  snd (getTransformation noStreams
         (mkMaker "A" "A"
            (snd (getTransformationChain treeCycle "A" "A" []))) 0 false) =
    Some (mkTransformation "A" "A" 0 (translate 1 1 1)).
Proof. repeat split; vm_compute; reflexivity. Qed.

(** S1 and a chain that starts with a dynamic element without data. *)
Lemma getTransformation_composes_witness :
  transformationChain makerAC <> [] /\
  getTransformation noStreams makerAC 0 false =
    (chainAC, Some (mkTransformation "A" "C" 0 (translate 1 1 0))) /\
  getTransformation noStreams makerNoData 0 false =
    ([DynamicTransformationElement "B" "C" 0], None).
Proof.
  split; [discriminate |]. split.
  - apply (proj1 (getTransformation_composes noStreams makerAC 0 false
                    ltac:(discriminate))
             [translate 0 1 0; translate 1 0 0]).
    vm_compute; reflexivity.
  - apply (proj1 (proj2 (getTransformation_composes noStreams
                           makerNoData 0 false ltac:(discriminate)))
             [] (DynamicTransformationElement "B" "C" 0)
             [static "A" "B" 1 0 0] []);
      vm_compute; reflexivity.
Defined.

(** S3 and S6 before any edge is known. *)
Lemma getTransformation_empty_chain_witness :
  transformationChain (mkMaker "A" "Z" []) = [] /\
  getTransformation noStreams (mkMaker "A" "Z" []) 0 true = ([], None).
Proof.
  split; [reflexivity |].
  apply (getTransformation_empty_chain noStreams (mkMaker "A" "Z" []) 0 true).
  reflexivity.
Defined.


(** A maker whose pair stays unreachable keeps the chain it was given. *)
Lemma failed_resolution_keeps_chain_witness :
  transformToStreamIndex supplied !! ("B", "C") = None /\
  pushDynamicTransformation supplied sampleBC = Some (afterPush supplied sampleBC) /\
  transformationMakers supplied !! 0%nat =
    Some (mkMaker "A" "Z" [static "A" "Z" 1 0 0]) /\
  transformationMakers (afterPush supplied sampleBC) !! 0%nat =
    Some (mkMaker "A" "Z" [static "A" "Z" 1 0 0]).
Proof.
  split; [vm_compute; reflexivity |].
  split; [vm_compute; reflexivity |].
  split; [vm_compute; reflexivity |].
  apply (proj1 (proj2 (failed_resolution_keeps_chain supplied sampleBC
                         (afterPush supplied sampleBC) 0%nat
                         (mkMaker "A" "Z" [static "A" "Z" 1 0 0])
                         ltac:(vm_compute; reflexivity)
                         ltac:(vm_compute; reflexivity)
                         ltac:(vm_compute; reflexivity)))).
  vm_compute; reflexivity.
Defined.

(** A triangle: the search from A back to A returns the three-edge
    cycle. *)
Lemma self_chain_is_never_empty_witness :
  getTransformationChain treeCycle "A" "A" [] =
    (true, [static "C" "A" 0 0 1; static "B" "C" 0 1 0; static "A" "B" 1 0 0]) /\
  exists chain,
    [static "C" "A" 0 0 1; static "B" "C" 0 1 0; static "A" "B" 1 0 0]
      = [] ++ chain /\
    (1 <= length chain)%nat /\
    Z.of_nat (length chain) <= maxSeekDepth treeCycle /\
    climbs chain "A" "A" /\ noTurnBack chain.
Proof.
  split; [vm_compute; reflexivity |].
  apply (proj1 (proj2 (self_chain_is_never_empty (Agg := streams)
                         treeCycle "A" []))).
  vm_compute; reflexivity.
Defined.

(** S1: travelled from A to C, the chain is A->B then B->C, and B->C does
    not lead back into A. *)
Lemma loop_guard_skips_reversal_witness :
  getTransformationChain treeABC "A" "C" [] = (true, chainAC) /\
  exists chain,
    chainAC = [] ++ chain /\
    carries (rev chain) "A" "C" /\
    noTurnBackRev (rev chain) /\ noAdjacentInverse (rev chain) /\
    noTurnBack chain /\ noAdjacentInverse chain.
Proof.
  split; [vm_compute; reflexivity |].
  apply (proj2 (proj2 (loop_guard_skips_reversal treeABC)) "A" "C" []).
  vm_compute; reflexivity.
Defined.

(** S6: with A->B only, the second level is empty and the search for Z
    returns [false]. *)
Lemma getTransformationChain_bounded_witness :
  levelNodes treeAB "A" 2 = [] /\
  getTransformationChain treeAB "A" "Z" [] = (false, []).
Proof.
  split; [vm_compute; reflexivity |].
  apply (proj1 (proj2 (proj2 (proj2
           (getTransformationChain_bounded treeAB "A" "Z" [])))) 2%nat).
  - vm_compute; reflexivity.
  - intros k n Hk Hn. assert (k = 1%nat) as -> by lia.
    vm_compute in Hn. destruct Hn as [<- | []]. discriminate.
Defined.

(** With the stand-in aggregator, which numbers its streams in order, no run
    of requests ever gives two pairs the same stream index. *)
Lemma scenario_table_injective rs t' :
  serveAll emptyTransformer rs = Some t' -> tableInjective issuedStreams t'.
Proof.
  apply (serveAll_tableInjective issuedStreams).
  - intros a bufferSize period priority idx a' [= <- <-].
    unfold issuedStreams. rewrite length_app. simpl. split; [lia |].
    intros i. lia.
  - intros idx atTime tr a i. unfold issuedStreams, push; simpl.
    destruct (idx <? 0); [done |].
    by rewrite (length_alter (A := list (Z * Translation))).
  - split; simpl; intros *; by rewrite lookup_empty.
Qed.

(** ** The further statements on the scenarios *)

(** In the triangle, the two-edge chain from A to C over B is a possible
    chain, and the search returns one that is not longer. *)
Lemma getTransformationChain_shortest_witness :
  guardedChain treeCycle "A" "C" chainAC /\
  exists chain,
    getTransformationChain treeCycle "A" "C" [] = (true, [] ++ chain) /\
    guardedChain treeCycle "A" "C" chain /\
    (length chain <= length chainAC)%nat.
Proof.
  assert (guardedChain treeCycle "A" "C" chainAC) as Hguarded.
  { split; [discriminate |].
    split; [vm_compute; by repeat split |].
    split; [simpl; split; [discriminate | exact I] |].
    split; [| vm_compute; discriminate].
    intros e [<- | [<- | []]]; vm_compute; auto 10. }
  split; [exact Hguarded |].
  apply (getTransformationChain_shortest treeCycle "A" "C" [] chainAC Hguarded).
Defined.

(** With two elements from A to B in the tree, the search from B to A
    returns the inverse of the first one. *)
Lemma getTransformationChain_direct_edge_witness :
  getTransformationChain treeTwice "B" "A" [] =
  (true, [] ++ [InverseTransformationElement (static "A" "B" 1 0 0)]).
Proof.
  apply (getTransformationChain_direct_edge treeTwice "B" "A" []
           [static "A" "B" 1 0 0]
           (InverseTransformationElement (static "A" "B" 1 0 0))
           [static "A" "B" 2 0 0;
            InverseTransformationElement (static "A" "B" 2 0 0)]).
  - vm_compute; discriminate.
  - reflexivity.
  - reflexivity.
  - reflexivity.
  - intros x [<- | []] [Hsource _]. discriminate Hsource.
Defined.

(** S6: no element leads into Z. *)
Lemma getTransformationChain_fails_witness :
  (forall e, In e (availableElements treeAB) -> getTargetFrame e <> "Z") /\
  getTransformationChain treeAB "A" "Z" [] = (false, []).
Proof.
  assert (forall e, In e (availableElements treeAB) -> getTargetFrame e <> "Z")
    as Hnone.
  { intros e He. vm_compute in He.
    destruct He as [<- | [<- | []]]; discriminate. }
  split; [exact Hnone |].
  apply (getTransformationChain_fails treeAB "A" "Z" []).
  right. right. exact Hnone.
Defined.

(** The chain from A to B survives the addition of B->C. *)
Lemma getTransformationChain_grows_witness :
  getTransformationChain treeAB "A" "B" [] =
    (true, [] ++ [static "A" "B" 1 0 0]) /\
  exists chain',
    getTransformationChain treeABC "A" "B" [] = (true, [] ++ chain') /\
    (length chain' <= length [static "A" "B" 1 0 0])%nat.
Proof.
  split; [vm_compute; reflexivity |].
  apply (getTransformationChain_grows treeAB treeABC "A" "B" []
           [static "A" "B" 1 0 0]).
  - intros e He. vm_compute in He. destruct He as [<- | [<- | []]];
      vm_compute; auto 10.
  - vm_compute; discriminate.
  - vm_compute; reflexivity.
Defined.

(** S1 and S2: the chain from A to C has a counterpart of the same length
    from C to A. *)
Lemma getTransformationChain_symmetric_witness :
  availableElements treeABC =
    withInverses [static "A" "B" 1 0 0; static "B" "C" 0 1 0] /\
  getTransformationChain treeABC "A" "C" [] = (true, [] ++ chainAC) /\
  exists chain',
    getTransformationChain treeABC "C" "A" [] = (true, [] ++ chain') /\
    length chain' = length chainAC.
Proof.
  split; [reflexivity |]. split; [vm_compute; reflexivity |].
  apply (getTransformationChain_symmetric treeABC
           [static "A" "B" 1 0 0; static "B" "C" 0 1 0] "A" "C" [] chainAC).
  - reflexivity.
  - vm_compute; reflexivity.
Defined.

(** After S3, a static push and a further sample of B->C leave the maker
    for (A, C) and the table as they are. *)
Lemma quiet_run_keeps_makers_witness :
  Forall (quiet (transformToStreamIndex (afterPush waiting sampleBC)))
    laterPushes /\
  exists t',
    serveAll (afterPush waiting sampleBC) laterPushes = Some t' /\
    transformationMakers t' =
      transformationMakers (afterPush waiting sampleBC) /\
    transformToStreamIndex t' =
      transformToStreamIndex (afterPush waiting sampleBC).
Proof.
  assert (Forall (quiet (transformToStreamIndex (afterPush waiting sampleBC)))
            laterPushes) as Hquiet.
  { constructor; [exact I |]. constructor; [| constructor].
    exists 0. vm_compute; reflexivity. }
  split; [exact Hquiet |].
  apply (quiet_run_keeps_makers (afterPush waiting sampleBC) laterPushes Hquiet).
Defined.

(** Samples of two pairs: both dynamic elements are in the tree. *)
Lemma serveAll_tableInTree_witness :
  tableInTree waiting /\
  serveAll waiting twoStreams = Some (afterRun waiting twoStreams) /\
  tableInTree (afterRun waiting twoStreams).
Proof.
  assert (tableInTree waiting) as Hinv.
  { intros a b idx Hkey. simpl in Hkey. by rewrite lookup_empty in Hkey. }
  assert (serveAll waiting twoStreams = Some (afterRun waiting twoStreams))
    as Hrun by (vm_compute; reflexivity).
  split; [exact Hinv |]. split; [exact Hrun |].
  apply (serveAll_tableInTree waiting twoStreams (afterRun waiting twoStreams)
           Hinv Hrun).
Defined.

(** S3: the chain the maker for (A, C) gets is sound. *)
Lemma serveAll_resolved_witness :
  Forall (makerResolved (transformationTree waiting))
    (transformationMakers waiting) /\
  Forall isPush twoStreams /\
  Forall (makerResolved (transformationTree (afterRun waiting twoStreams)))
    (transformationMakers (afterRun waiting twoStreams)).
Proof.
  assert (Forall (makerResolved (transformationTree waiting))
            (transformationMakers waiting)) as Hresolved.
  { constructor; [by left | constructor]. }
  assert (Forall isPush twoStreams) as Hpush.
  { repeat constructor. }
  split; [exact Hresolved |]. split; [exact Hpush |].
  apply (serveAll_resolved waiting twoStreams (afterRun waiting twoStreams)
           Hresolved Hpush).
  vm_compute; reflexivity.
Defined.

(** Samples of two pairs with the stand-in aggregator: the pairs get
    different stream indices. *)
Lemma stream_indices_stay_distinct_witness :
  tableInjective issuedStreams waiting /\
  forall key1 key2 idx,
    transformToStreamIndex (afterRun waiting twoStreams) !! key1 = Some idx ->
    transformToStreamIndex (afterRun waiting twoStreams) !! key2 = Some idx ->
    key1 = key2.
Proof.
  assert (tableInjective issuedStreams waiting) as Hok.
  { split; simpl; intros *; by rewrite lookup_empty. }
  split; [exact Hok |].
  apply (stream_indices_stay_distinct issuedStreams waiting twoStreams
           (afterRun waiting twoStreams)).
  - intros a bufferSize period priority idx a' [= <- <-].
    unfold issuedStreams. rewrite length_app. simpl. split; [lia |].
    intros i. lia.
  - intros idx atTime tr a i. unfold issuedStreams, push; simpl.
    destruct (idx <? 0); [done |].
    by rewrite (length_alter (A := list (Z * Translation))).
  - exact Hok.
  - vm_compute; reflexivity.
Defined.

(** S1 in two halves: the maker for (A, C) gets the transform of the
    maker for (B, C) multiplied on the right by the sample of A->B; and a
    chain whose front part has no data fails where the front part fails. *)
Lemma getTransformation_concat_witness :
  transformationChain makerAC =
    transformationChain makerBC ++ [static "A" "B" 1 0 0] /\
  getTransformation noStreams makerAC 0 false =
    (chainAC,
     Some {| from := "A"; to := "C"; time := 0;
             transform :=
               fold_left times [translate 1 0 0] (transform resultBC) |}) /\
  getTransformation noStreams makerNoData 0 false =
    (fst (getTransformation noStreams makerNoDataFront 0 false), None).
Proof.
  split; [reflexivity |]. split.
  - apply (proj1 (getTransformation_concat noStreams makerBC makerAC
                    [static "A" "B" 1 0 0] 0 false eq_refl) resultBC).
    + vm_compute; reflexivity.
    + vm_compute; reflexivity.
  - apply (proj2 (getTransformation_concat noStreams makerNoDataFront
                    makerNoData [static "A" "B" 1 0 0] 0 false eq_refl)).
    + discriminate.
    + vm_compute; reflexivity.
Defined.

(** Of three makers, both makers for (A, Z) get the supplied chain, the
    last one included, and the maker for (A, C) keeps its own. *)
Lemma addTransformationChain_composes_witness :
  transformationMakers threeMakers !! 2%nat = Some (mkMaker "A" "Z" []) /\
  transformationMakers (addTransformationChain threeMakers "A" "Z" chainAZ)
    !! 2%nat = Some (mkMaker "A" "Z" chainAZ) /\
  transformationMakers (addTransformationChain threeMakers "A" "Z" chainAZ)
    !! 1%nat = Some (mkMaker "A" "C" chainAC).
Proof.
  split; [reflexivity |]. split.
  - apply (proj1 (addTransformationChain_composes threeMakers "A" "Z"
                    chainAZ [] 2%nat (mkMaker "A" "Z" []) eq_refl)).
    by split.
  - apply (proj1 (proj2 (addTransformationChain_composes threeMakers "A" "Z"
                           chainAZ [] 1%nat (mkMaker "A" "C" chainAC)
                           eq_refl))).
    intros [_ Hb]. discriminate Hb.
Defined.
